(** * classify_model.py: fine-tuning loop of a sentence classifier

    A shallow embedding of [SentenceClassifyModel] and [ModelTrainer].

    The deep-learning framework (encoder, linear layer, autograd, AdamW) is
    an interface, [Framework]; the script's own logic (order of calls,
    checkpoint policy, metric bookkeeping, learning-rate schedule
    parameters) is embedded as computations in a state-and-trace monad over
    the interpreter's mutable state [world].  Every call into the framework
    and every file or console effect is recorded as an [event]. *)

From Stdlib Require Import List String Bool Arith ZArith QArith Lia.
From Stdlib Require Import Reals Lra.
From Stdlib Require Import Sorted.
Import ListNotations.

Local Open Scope nat_scope.

(** ** Library functions used by the script *)

(** Python floats that the script compares or reports (accuracies, logits)
    are modelled by the rationals they denote. *)
Definition Qltb (x y : Q) : bool := negb (Qle_bool y x).

(** [sklearn.metrics.accuracy_score] on label sequences: the fraction of
    positions at which the two agree.  Every call site passes sequences of
    equal length (one prediction per label).  On empty input the library's
    result is not a number, and every comparison with it is false; here the
    result is 0, and [0 > best_acc] is false as well. *)
Fixpoint count_equal (y_true y_pred : list nat) : nat :=
  match y_true, y_pred with
  | t :: ts, p :: ps => (if Nat.eqb t p then 1 else 0) + count_equal ts ps
  | _, _ => 0
  end.

Definition accuracy_score (y_true y_pred : list nat) : Q :=
  Z.of_nat (count_equal y_true y_pred) # Pos.of_nat (List.length y_true).

(** [torch.argmax(_, dim=1)]: per row, the index of the first maximal
    value.  Rows have [classes >= 1] entries. *)
Fixpoint argmax_from (best_i : nat) (best : Q) (i : nat) (row : list Q) : nat :=
  match row with
  | [] => best_i
  | x :: xs =>
      if Qltb best x then argmax_from i x (S i) xs
      else argmax_from best_i best (S i) xs
  end.

Definition argmax_row (row : list Q) : nat :=
  match row with
  | [] => 0
  | x :: xs => argmax_from 0 x 1 xs
  end.

Definition argmax_dim1 (logits : list (list Q)) : list nat :=
  map argmax_row logits.

(** [sklearn.metrics.classification_report]: one row per class, with the
    quantities the script's closing docstring defines.  A quotient with a
    zero denominator is reported as 0, which is also what [Qdiv] gives. *)
Record class_row := {
  row_class : nat;
  row_precision : Q;
  row_recall : Q;
  row_f1 : Q;
  row_support : nat
}.

Fixpoint count_pairs (f : nat -> nat -> bool) (y_true y_pred : list nat) : nat :=
  match y_true, y_pred with
  | t :: ts, p :: ps => (if f t p then 1 else 0) + count_pairs f ts ps
  | _, _ => 0
  end.

Definition nQ (n : nat) : Q := inject_Z (Z.of_nat n).

Definition report_row (y_true y_pred : list nat) (c : nat) : class_row :=
  let tp := count_pairs (fun t p => Nat.eqb t c && Nat.eqb p c) y_true y_pred in
  let fp := count_pairs (fun t p => negb (Nat.eqb t c) && Nat.eqb p c) y_true y_pred in
  let fn := count_pairs (fun t p => Nat.eqb t c && negb (Nat.eqb p c)) y_true y_pred in
  let precision := (nQ tp / nQ (tp + fp))%Q in
  let recall := (nQ tp / nQ (tp + fn))%Q in
  {| row_class := c;
     row_precision := precision;
     row_recall := recall;
     row_f1 := ((2 # 1) * precision * recall / (precision + recall))%Q;
     row_support := count_occ Nat.eq_dec y_true c |}.

Fixpoint insert_sorted (c : nat) (l : list nat) : list nat :=
  match l with
  | [] => [c]
  | x :: xs =>
      if Nat.ltb c x then c :: l
      else if Nat.eqb c x then l
      else x :: insert_sorted c xs
  end.

(** The classes of a report: the labels occurring in either sequence, in
    increasing order. *)
Definition unique_labels (y_true y_pred : list nat) : list nat :=
  fold_right insert_sorted [] (y_true ++ y_pred).

Definition classification_report (y_true y_pred : list nat) : list class_row :=
  map (report_row y_true y_pred) (unique_labels y_true y_pred).

(** [transformers.get_cosine_schedule_with_warmup] returns a scheduler
    whose state is its two lengths and the number of [step()] calls so far
    ([last_epoch]). *)
Record scheduler := {
  num_warmup_steps : nat;
  num_training_steps : nat;
  last_epoch : nat
}.

Definition get_cosine_schedule_with_warmup (warmup training : nat) : scheduler :=
  {| num_warmup_steps := warmup; num_training_steps := training; last_epoch := 0 |}.

Definition scheduler_advance (s : scheduler) : scheduler :=
  {| num_warmup_steps := num_warmup_steps s;
     num_training_steps := num_training_steps s;
     last_epoch := S (last_epoch s) |}.

(** ** The framework interface *)

Class Framework := {
  tensor : Type;       (* integer tensors of a batch, [bs, seq_len] *)
  state_dict : Type;   (* every parameter of the model *)
  seq_hidden : Type;   (* outputs[0] of the encoder *)
  pooled : Type;       (* outputs[1] of the encoder, [bs, hidden_size] *)
  logits_t : Type;     (* [bs, classes], with its autograd history *)
  loss_t : Type;       (* scalar loss, with its autograd history *)
  grads : Type;        (* one gradient per parameter *)
  adam_state : Type;   (* AdamW's moment estimates *)
  generator : Type;    (* state of the random number generator *)
  (* BertModel.forward; [Some g] in training mode (dropout inside the
     encoder draws from g), [None] in evaluation mode *)
  bert : state_dict -> option generator -> tensor -> tensor -> option tensor ->
         seq_hidden * pooled;
  (* nn.Dropout(hidden_dropout_prob) in training mode *)
  dropout_mask : generator -> pooled -> pooled;
  (* nn.Linear(hidden_size, classes) *)
  classifier : state_dict -> pooled -> logits_t;
  logits_values : logits_t -> list (list Q);
  cross_entropy : logits_t -> list nat -> loss_t;
  loss_item : loss_t -> Q;
  autograd : loss_t -> grads;
  grads_add : grads -> grads -> grads;
  next_generator : generator -> generator;
  adamw_init : state_dict -> adam_state;
  (* one AdamW update (lr=2e-5 scaled by the schedule, weight_decay=1e-4);
     the scheduler argument stands for the learning rate it wrote into the
     optimizer's parameter group *)
  adamw_update : adam_state -> scheduler -> state_dict -> option grads ->
                 state_dict * adam_state
}.

Section Script.

Context {F : Framework}.

(** ** Data model *)

Record Batch := {
  b_input_ids : tensor;
  b_attention_mask : tensor;
  b_token_type_ids : tensor;
  b_labels : list nat
}.

Inductive batch_key := K_input_ids | K_token_type_ids | K_attention_mask | K_labels.

Inductive event :=
| ToDevice (k : batch_key)
| ModelTrainMode
| ModelEvalMode
| NoGradEnter
| NoGradExit
| BertCall (training grad : bool) (input_ids attention_mask : tensor)
           (token_type_ids : option tensor)
| DropoutCall (training : bool)
| ClassifierCall
| CrossEntropyLoss (labels : list nat)
| ZeroGrad
| Backward
| OptimizerStep (lr_from : scheduler)
| SchedulerStep
| StepLog (epoch_index batch_index : nat) (mean_loss mean_accuracy : Q)
          (lr_from : scheduler)
| ValidLog (epoch_index : nat) (acc : Q)
| Save (path : string) (sd : state_dict)
| Load (path : string)
| LoadStateDict (sd : state_dict)
| PrintEpoch (acc best : Q)
| PrintTestAccuracy (acc : Q)
| PrintReport (rows : list class_row).

(** The mutable state the script works on: the model object, autograd's
    global switch, the trainer's [best_acc] and the checkpoint files. *)
Record world := {
  params : state_dict;
  training : bool;
  grad_enabled : bool;
  grad_buf : option grads;
  gen : generator;
  best_acc : Q;
  files : string -> option state_dict
}.

(** The objects local to [model_train]. *)
Record optim := {
  moments : adam_state;
  sched : scheduler
}.

Record Trainer := {
  epochs : nat;
  steps : nat;                         (* len(self.train_loader) *)
  train_loader : nat -> list Batch;    (* the batches of the i-th pass (shuffle=True) *)
  valid_loader : list Batch;
  test_loader : list Batch;
  train_loader_len : forall i, List.length (train_loader i) = steps
}.

Definition best_model_path : string := "model/best_model.pth"%string.
Definition most_model_path : string := "model/most_model.pth"%string.

(** ** State-and-trace monad *)

Record out (A : Type) := Out { val : A; st : world; evs : list event }.
Arguments Out {A} _ _ _.
Arguments val {A} _.
Arguments st {A} _.
Arguments evs {A} _.

Definition M (A : Type) : Type := world -> out A.

Definition ret {A} (a : A) : M A := fun w => Out a w [].

Definition bind {A B} (m : M A) (k : A -> M B) : M B :=
  fun w =>
    match m w with
    | Out a w1 e1 =>
        match k a w1 with
        | Out b w2 e2 => Out b w2 (e1 ++ e2)
        end
    end.

Definition emit (e : event) : M unit := fun w => Out tt w [e].
Definition get : M world := fun w => Out w w [].
Definition modify (f : world -> world) : M unit := fun w => Out tt (f w) [].

Declare Scope monad_scope.
Delimit Scope monad_scope with monad.
Notation "x <- m ;; k" := (bind m (fun x => k))
  (at level 61, m at next level, right associativity) : monad_scope.
Notation "m ;; k" := (bind m (fun _ => k))
  (at level 61, right associativity) : monad_scope.
Local Open Scope monad_scope.

(** [for x in l: a = body(a, x)] *)
Fixpoint for_each {A B} (body : A -> B -> M A) (l : list B) (a : A) : M A :=
  match l with
  | [] => ret a
  | b :: bs => a' <- body a b ;; for_each body bs a'
  end.

(** ** World updates *)

Definition set_params (sd : state_dict) (w : world) : world :=
  {| params := sd; training := training w; grad_enabled := grad_enabled w;
     grad_buf := grad_buf w; gen := gen w; best_acc := best_acc w;
     files := files w |}.

Definition set_training (b : bool) (w : world) : world :=
  {| params := params w; training := b; grad_enabled := grad_enabled w;
     grad_buf := grad_buf w; gen := gen w; best_acc := best_acc w;
     files := files w |}.

Definition set_grad_enabled (b : bool) (w : world) : world :=
  {| params := params w; training := training w; grad_enabled := b;
     grad_buf := grad_buf w; gen := gen w; best_acc := best_acc w;
     files := files w |}.

Definition set_grad_buf (g : option grads) (w : world) : world :=
  {| params := params w; training := training w; grad_enabled := grad_enabled w;
     grad_buf := g; gen := gen w; best_acc := best_acc w;
     files := files w |}.

Definition set_gen (g : generator) (w : world) : world :=
  {| params := params w; training := training w; grad_enabled := grad_enabled w;
     grad_buf := grad_buf w; gen := g; best_acc := best_acc w;
     files := files w |}.

Definition set_best_acc (a : Q) (w : world) : world :=
  {| params := params w; training := training w; grad_enabled := grad_enabled w;
     grad_buf := grad_buf w; gen := gen w; best_acc := a;
     files := files w |}.

Definition write_file (p : string) (sd : state_dict) (w : world) : world :=
  {| params := params w; training := training w; grad_enabled := grad_enabled w;
     grad_buf := grad_buf w; gen := gen w; best_acc := best_acc w;
     files := fun q => if String.eqb q p then Some sd else files w q |}.

(** ** Framework calls as computations *)

(** [x.to(device)] *)
Definition to_device {A} (k : batch_key) (x : A) : M A :=
  emit (ToDevice k) ;; ret x.

(** [self.model.train()] and [self.model.eval()] *)
Definition model_train_mode : M unit :=
  modify (set_training true) ;; emit ModelTrainMode.

Definition model_eval_mode : M unit :=
  modify (set_training false) ;; emit ModelEvalMode.

(** [with torch.no_grad(): body] *)
Definition no_grad {A} (body : M A) : M A :=
  w <- get ;;
  modify (set_grad_enabled false) ;; emit NoGradEnter ;;
  r <- body ;;
  modify (set_grad_enabled (grad_enabled w)) ;; emit NoGradExit ;;
  ret r.

(** In training mode a module draws its dropout noise from the generator;
    in evaluation mode it draws nothing. *)
Definition draw : M (option generator) :=
  w <- get ;;
  modify (if training w then set_gen (next_generator (gen w)) else fun w => w) ;;
  ret (if training w then Some (gen w) else None).

(** [self.bert(input_ids=.., attention_mask=.., token_type_ids=..)] *)
Definition self_bert (input_ids attention_mask : tensor)
    (token_type_ids : option tensor) : M (seq_hidden * pooled) :=
  w <- get ;;
  g <- draw ;;
  emit (BertCall (training w) (grad_enabled w) input_ids attention_mask token_type_ids) ;;
  ret (bert (params w) g input_ids attention_mask token_type_ids).

(** [self.dropout(x)]: the module built in [__init__] *)
Definition self_dropout (x : pooled) : M pooled :=
  w <- get ;;
  g <- draw ;;
  emit (DropoutCall (training w)) ;;
  ret (match g with Some g => dropout_mask g x | None => x end).

(** [self.classifier(x)] *)
Definition self_classifier (x : pooled) : M logits_t :=
  w <- get ;;
  emit ClassifierCall ;;
  ret (classifier (params w) x).

(** ** SentenceClassifyModel.forward *)

Definition forward (input_ids attention_mask : tensor)
    (token_type_ids : option tensor) : M logits_t :=
  outputs <- self_bert input_ids attention_mask token_type_ids ;;
  let out_pool := snd outputs in
  logit <- self_classifier out_pool ;;
  ret logit.

(** The head as the specification words it: encoder, pooled output, dropout,
    linear projection.  Used only to compare with [forward]. *)
Definition forward_documented (input_ids attention_mask : tensor)
    (token_type_ids : option tensor) : M logits_t :=
  outputs <- self_bert input_ids attention_mask token_type_ids ;;
  let out_pool := snd outputs in
  dropped <- self_dropout out_pool ;;
  logit <- self_classifier dropped ;;
  ret logit.

(** ** ModelTrainer.model_evaluate *)

Definition model_evaluate (y_true : list nat) (y_pred : logits_t) : Q :=
  let np_y_true := y_true in
  let np_y_pred := argmax_dim1 (logits_values y_pred) in
  accuracy_score np_y_true np_y_pred.

(** ** ModelTrainer *)

Variable T : Trainer.

(** [nn.CrossEntropyLoss()(pred, true)] *)
Definition cross_entropy_loss (pred : logits_t) (true_labels : list nat) : M loss_t :=
  emit (CrossEntropyLoss true_labels) ;; ret (cross_entropy pred true_labels).

(** [optimizer.zero_grad()]: every [.grad] is cleared. *)
Definition optimizer_zero_grad : M unit :=
  modify (set_grad_buf None) ;; emit ZeroGrad.

(** [loss.backward()]: the gradient of the loss is accumulated into the
    [.grad] buffers (stored when they are clear, added otherwise). *)
Definition loss_backward (loss : loss_t) : M unit :=
  w <- get ;;
  modify (set_grad_buf
            (match grad_buf w with
             | None => Some (autograd loss)
             | Some g => Some (grads_add g (autograd loss))
             end)) ;;
  emit Backward.

(** [optimizer.step()] *)
Definition optimizer_step (o : optim) : M optim :=
  w <- get ;;
  let r := adamw_update (moments o) (sched o) (params w) (grad_buf w) in
  modify (set_params (fst r)) ;;
  emit (OptimizerStep (sched o)) ;;
  ret {| moments := snd r; sched := sched o |}.

(** [scheduler.step()] *)
Definition scheduler_step (o : optim) : M optim :=
  emit SchedulerStep ;;
  ret {| moments := moments o; sched := scheduler_advance (sched o) |}.

(** [torch.save(self.model.state_dict(), path)]; the directory [model/]
    exists and is writable. *)
Definition torch_save (path : string) : M unit :=
  w <- get ;;
  modify (write_file path (params w)) ;;
  emit (Save path (params w)).

(** [torch.load(path)]: [None] stands for the exception raised when the
    file does not exist. *)
Definition torch_load (path : string) : M (option state_dict) :=
  w <- get ;;
  emit (Load path) ;;
  ret (files w path).

(** [self.model.load_state_dict(sd)] *)
Definition load_state_dict (sd : state_dict) : M unit :=
  modify (set_params sd) ;; emit (LoadStateDict sd).

(** The variables carried around the inner loop of [model_train]. *)
Record epoch_vars := {
  opt : optim;
  train_loss_sum : Q;
  train_accuracy : Q;
  batch_index : nat
}.

(** One iteration of [for batch in self.train_loader] (lines 85-113). *)
Definition train_batch (epoch_index : nat) (v : epoch_vars) (batch : Batch)
    : M epoch_vars :=
  let batch_index := batch_index v + 1 in
  input_ids <- to_device K_input_ids (b_input_ids batch) ;;
  token_type_ids <- to_device K_token_type_ids (b_token_type_ids batch) ;;
  attention_mask <- to_device K_attention_mask (b_attention_mask batch) ;;
  true_labels <- to_device K_labels (b_labels batch) ;;
  pred_labels <- forward input_ids attention_mask None ;;
  loss <- cross_entropy_loss pred_labels true_labels ;;
  optimizer_zero_grad ;;
  loss_backward loss ;;
  o1 <- optimizer_step (opt v) ;;
  o2 <- scheduler_step o1 ;;
  let train_loss_sum := (train_loss_sum v + loss_item loss)%Q in
  let train_accuracy := (train_accuracy v + model_evaluate true_labels pred_labels)%Q in
  emit (StepLog epoch_index batch_index
                (train_loss_sum / nQ batch_index)%Q
                (train_accuracy / nQ batch_index)%Q
                (sched o2)) ;;
  ret {| opt := o2; train_loss_sum := train_loss_sum;
         train_accuracy := train_accuracy; batch_index := batch_index |}.

(** One iteration of the loops of [model_valid] and [model_test]. *)
Definition eval_batch (acc : list nat * list nat) (batch : Batch)
    : M (list nat * list nat) :=
  input_ids <- to_device K_input_ids (b_input_ids batch) ;;
  attention_mask <- to_device K_attention_mask (b_attention_mask batch) ;;
  y_true <- to_device K_labels (b_labels batch) ;;
  y_pred <- forward input_ids attention_mask None ;;
  ret (fst acc ++ y_true, snd acc ++ argmax_dim1 (logits_values y_pred)).

(** [model_valid(data_loader, desc)] *)
Definition model_valid (data_loader : list Batch) : M Q :=
  model_eval_mode ;;
  r <- no_grad (for_each eval_batch data_loader ([], [])) ;;
  ret (accuracy_score (fst r) (snd r)).

(** Lines 121-125: the checkpoint policy at the end of an epoch. *)
Definition save_checkpoints (acc : Q) : M unit :=
  w <- get ;;
  (if Qltb (best_acc w) acc
   then modify (set_best_acc acc) ;; torch_save best_model_path
   else ret tt) ;;
  torch_save most_model_path ;;
  w' <- get ;;
  emit (PrintEpoch acc (best_acc w')).

(** One iteration of [for i in range(self.epochs)] (lines 77-126). *)
Definition train_epoch (o : optim) (i : nat) : M optim :=
  model_train_mode ;;
  let epoch_index := i + 1 in
  v <- for_each (train_batch epoch_index) (train_loader T i)
         {| opt := o; train_loss_sum := 0; train_accuracy := 0; batch_index := 0 |} ;;
  acc <- model_valid (valid_loader T) ;;
  emit (ValidLog epoch_index acc) ;;
  save_checkpoints acc ;;
  ret (opt v).

(** The optimizer and the schedule built at the start of [model_train]. *)
Definition new_optim (w : world) : optim :=
  {| moments := adamw_init (params w);
     sched := get_cosine_schedule_with_warmup (steps T) (epochs T * steps T) |}.

(** The first [n] epochs of the loop of [model_train]. *)
Definition run_epochs (n : nat) (o : optim) : M optim :=
  for_each train_epoch (seq 0 n) o.

Definition model_train : M unit :=
  w <- get ;;
  run_epochs (epochs T) (new_optim w) ;;
  ret tt.

Inductive exn := FileNotFoundError (path : string).

(** [model_test()]: [inl] is the exception that ends the run. *)
Definition model_test : M (exn + unit) :=
  loaded <- torch_load best_model_path ;;
  match loaded with
  | None => ret (inl (FileNotFoundError best_model_path))
  | Some sd =>
      load_state_dict sd ;;
      model_eval_mode ;;
      r <- no_grad (for_each eval_batch (test_loader T) ([], [])) ;;
      emit (PrintTestAccuracy (accuracy_score (fst r) (snd r))) ;;
      emit (PrintReport (classification_report (fst r) (snd r))) ;;
      ret (inr tt)
  end.

(** Lines 170-173: the script trains, then tests. *)
Definition main : M (exn + unit) :=
  model_train ;;
  model_test.

(** The state when [ModelTrainer.__init__] returns: a module is created in
    training mode, gradients are enabled, no gradient computed yet. *)
Definition init_world (sd : state_dict) (g : generator)
    (fs : string -> option state_dict) : world :=
  {| params := sd; training := true; grad_enabled := true; grad_buf := None;
     gen := g; best_acc := 0; files := fs |}.

(** ** Vocabulary of the properties *)

(** The classes that parameters [sd] predict for a batch in evaluation
    mode, called as the trainer calls the model. *)
Definition predict (sd : state_dict) (b : Batch) : list nat :=
  argmax_dim1 (logits_values
    (classifier sd (snd (bert sd None (b_input_ids b) (b_attention_mask b) None)))).

(** Accuracy of [sd] over a whole split. *)
Definition split_accuracy (sd : state_dict) (l : list Batch) : Q :=
  accuracy_score (flat_map b_labels l) (flat_map (predict sd) l).

(** The events of one evaluation iteration on batch [b]. *)
Definition eval_events (grad : bool) (b : Batch) : list event :=
  [ToDevice K_input_ids; ToDevice K_attention_mask; ToDevice K_labels;
   BertCall false grad (b_input_ids b) (b_attention_mask b) None;
   ClassifierCall].

Definition is_save_to (p : string) (e : event) : bool :=
  match e with
  | Save q _ => String.eqb q p
  | _ => false
  end.

Definition is_bert_call (e : event) : bool :=
  match e with
  | BertCall _ _ _ _ _ => true
  | _ => false
  end.

(** The encoder is called without segment ids. *)
Definition without_segment_ids (e : event) : Prop :=
  match e with
  | BertCall _ _ _ _ tti => tti = None
  | _ => True
  end.

(** The encoder is called in evaluation mode with autograd switched off. *)
Definition frozen_call (e : event) : Prop :=
  match e with
  | BertCall tr gr _ _ _ => tr = false /\ gr = false
  | _ => True
  end.

(** The training part of epoch [i] started in [w], and the validation
    accuracy that epoch then measures. *)
Definition epoch_trained (o : optim) (i : nat) (w : world) : out epoch_vars :=
  for_each (train_batch (i + 1)) (train_loader T i)
    {| opt := o; train_loss_sum := 0; train_accuracy := 0; batch_index := 0 |}
    (set_training true w).

Definition epoch_acc (o : optim) (i : nat) (w : world) : Q :=
  val (model_valid (valid_loader T) (st (epoch_trained o i w))).

(** The run of [model_train] from [w], after its first [n] epochs. *)
Definition run_state (n : nat) (w : world) : out optim :=
  run_epochs n (new_optim w) w.

(** Validation accuracy measured by epoch [i] (from 0) of that run. *)
Definition run_acc (i : nat) (w : world) : Q :=
  epoch_acc (val (run_state i w)) i (st (run_state i w)).

(** ** The learning rate as a real number

    The multiplier of [get_cosine_schedule_with_warmup] (half a cosine
    cycle) at the scheduler's current step, and the learning rate that
    the scheduler writes into the optimizer: the base rate [lr=2e-5]
    times the multiplier. *)
Definition lr_lambda (s : scheduler) : R :=
  let current_step := last_epoch s in
  if current_step <? num_warmup_steps s
  then (INR current_step / INR (Nat.max 1 (num_warmup_steps s)))%R
  else
    let progress :=
      (INR (current_step - num_warmup_steps s) /
       INR (Nat.max 1 (num_training_steps s - num_warmup_steps s)))%R in
    Rmax 0 (0.5 * (1 + cos (PI * 0.5 * 2 * progress)))%R.

Definition base_lr : R := (2 / 100000)%R.

Definition get_lr (s : scheduler) : R := (base_lr * lr_lambda s)%R.

(** The schedule of a run with [E] epochs of [S] steps, after [k] steps. *)
Definition schedule_at (E S k : nat) : scheduler :=
  {| num_warmup_steps := S; num_training_steps := E * S; last_epoch := k |}.

(** The best-checkpoint file, once written, holds parameters whose
    validation accuracy is the recorded [best_acc]. *)
Definition best_file_matches (w : world) : Prop :=
  (0 < best_acc w)%Q ->
  exists sd, files w best_model_path = Some sd /\
             split_accuracy sd (valid_loader T) = best_acc w.
End Script.

Arguments Out {F A} _ _ _.
Arguments val {F A} _.
Arguments st {F A} _.
Arguments evs {F A} _.

(** ** A one-weight instance of the framework

    Each example is one integer feature; the model has a single integer
    weight and prefers class 1 when weight times feature is positive.
    Small enough to run the whole script by evaluation. *)
Module Toy.

Definition toy_bert (sd : Z) (g : option nat) (ids mask : list Z)
    (tti : option (list Z)) : unit * list Q :=
  (tt, map inject_Z ids).

(** Dropout with probability 1/2: a unit is dropped on an even draw and
    doubled on an odd one. *)
Definition toy_dropout (g : nat) (x : list Q) : list Q :=
  map (fun v => if Nat.even g then 0%Q else ((2 # 1) * v)%Q) x.

Definition toy_classifier (sd : Z) (x : list Q) : list (list Q) :=
  map (fun v => [0%Q; (inject_Z sd * v)%Q]) x.

(** The loss counts the misclassified examples; its gradient pushes the
    weight up for every example of class 1 and down for every other. *)
Definition toy_cross_entropy (logits : list (list Q)) (labels : list nat) : Q * Z :=
  (nQ (List.length labels - count_equal labels (argmax_dim1 logits)),
   fold_right Z.add 0%Z (map (fun l => if Nat.eqb l 1 then (-1)%Z else 1%Z) labels)).

Definition toy_update (m : nat) (s : scheduler) (sd : Z) (g : option Z) : Z * nat :=
  (match g with Some g => (sd - g)%Z | None => sd end, S m).

#[export] Instance toy : Framework := {|
  tensor := list Z;
  state_dict := Z;
  seq_hidden := unit;
  pooled := list Q;
  logits_t := list (list Q);
  loss_t := Q * Z;
  grads := Z;
  adam_state := nat;
  generator := nat;
  bert := toy_bert;
  dropout_mask := toy_dropout;
  classifier := toy_classifier;
  logits_values := fun l => l;
  cross_entropy := toy_cross_entropy;
  loss_item := fst;
  autograd := snd;
  grads_add := Z.add;
  next_generator := S;
  adamw_init := fun _ => 0;
  adamw_update := toy_update
|}.

Definition batch_of (ids : list Z) (labels : list nat) : Batch :=
  {| b_input_ids := ids; b_attention_mask := map (fun _ => 1%Z) ids;
     b_token_type_ids := map (fun _ => 0%Z) ids; b_labels := labels |}.

(** Two epochs of one step: the first epoch learns the validation example,
    the second unlearns it. *)
Definition regressing_loader (i : nat) : list Batch :=
  [batch_of [1%Z] [if Nat.eqb i 0 then 1 else 0]].

Definition regressing : Trainer :=
  {| epochs := 2; steps := 1;
     train_loader := regressing_loader;
     valid_loader := [batch_of [1%Z] [1]];
     test_loader := [batch_of [1%Z; 2%Z] [1; 1]];
     train_loader_len := fun _ => eq_refl |}.

(** Two epochs of one step that never get the validation example right. *)
Definition stuck_loader (i : nat) : list Batch := [batch_of [1%Z] [0]].

Definition stuck : Trainer :=
  {| epochs := 2; steps := 1;
     train_loader := stuck_loader;
     valid_loader := [batch_of [1%Z] [1]];
     test_loader := [batch_of [1%Z; 2%Z] [1; 1]];
     train_loader_len := fun _ => eq_refl |}.

Definition no_files : string -> option Z := fun _ => None.

(** A best-checkpoint file left behind by an earlier run. *)
Definition stale_files : string -> option Z :=
  fun p => if String.eqb p best_model_path then Some 5%Z else None.

Definition logits_0010 : list (list Q) :=
  [[2 # 1; 1 # 1]; [3 # 1; 1 # 1]; [0 # 1; 5 # 1]; [1 # 1; 0 # 1]].

End Toy.

(** ** Vocabulary for the metrics *)

(** [i] is the first index of [row] that holds a maximal value. *)
Definition first_max_index (row : list Q) (i : nat) : Prop :=
  i < List.length row /\
  (forall j, j < List.length row -> (nth j row 0 <= nth i row 0)%Q) /\
  (forall j, j < i -> (nth j row 0 < nth i row 0)%Q).

(** The number of examples whose label and prediction satisfy [f]. *)
Definition count_examples (f : nat -> nat -> bool) (y_true y_pred : list nat) : nat :=
  List.length (filter (fun tp => f (fst tp) (snd tp)) (combine y_true y_pred)).

(** A row of the report holds, for its class [c], what the script's closing
    docstring defines: precision TP / (TP + FP), recall TP / (TP + FN), F1
    their harmonic mean 2 * precision * recall / (precision + recall), and
    support the number of examples whose label is [c]. *)
Definition row_as_documented (y_true y_pred : list nat) (row : class_row) : Prop :=
  let c := row_class row in
  let tp := count_examples (fun t p => Nat.eqb t c && Nat.eqb p c) y_true y_pred in
  let fp := count_examples (fun t p => negb (Nat.eqb t c) && Nat.eqb p c) y_true y_pred in
  let fn := count_examples (fun t p => Nat.eqb t c && negb (Nat.eqb p c)) y_true y_pred in
  row_precision row = (nQ tp / nQ (tp + fp))%Q /\
  row_recall row = (nQ tp / nQ (tp + fn))%Q /\
  row_f1 row =
    ((2 # 1) * row_precision row * row_recall row /
     (row_precision row + row_recall row))%Q /\
  row_support row = List.length (filter (Nat.eqb c) y_true).

(** ** ModelTrainer.get_parameter_number *)

(** What the method reads of each tensor of [self.model.parameters()]. *)
Record parameter := { numel : nat; requires_grad : bool }.

(** The two numbers it prints: the elements of all tensors, and those of
    the tensors that require a gradient. *)
Definition get_parameter_number (parameters : list parameter) : nat * nat :=
  let total_num := list_sum (map numel parameters) in
  let trainable_num := list_sum (map numel (filter requires_grad parameters)) in
  (total_num, trainable_num).

(** ** Bookkeeping of the training loop *)

(** Lines 121-122: [best_acc] after an epoch that measured [acc]. *)
Definition updated_best (best acc : Q) : Q :=
  if Qltb best acc then acc else best.

(** Lines 108-113: the [global_step] under which the scalars of step
    [batch_index] of epoch [epoch_index] are filed. *)
Definition global_step (steps epoch_index batch_index : nat) : nat :=
  (epoch_index - 1) * steps + batch_index.

Section Bookkeeping.

Context {F : Framework}.

Definition logged_global_steps (steps : nat) (e : event) : list nat :=
  match e with
  | StepLog epoch_index batch_index _ _ _ => [global_step steps epoch_index batch_index]
  | _ => []
  end.

(** The schedule state whose rate an optimizer step applies, and the one
    whose rate a step's log line shows. *)
Definition update_rates (e : event) : list scheduler :=
  match e with
  | OptimizerStep s => [s]
  | _ => []
  end.

Definition logged_rates (e : event) : list scheduler :=
  match e with
  | StepLog _ _ _ _ s => [s]
  | _ => []
  end.

Definition is_step_event (e : event) : bool :=
  match e with
  | OptimizerStep _ | StepLog _ _ _ _ _ => true
  | _ => false
  end.

Definition logged_accuracy_in_range (e : event) : Prop :=
  match e with
  | StepLog _ _ _ a _ => (0 <= a /\ a <= 1)%Q
  | _ => True
  end.

(** The encoder calls of a training step and of an evaluation step. *)
Definition train_call (grad : bool) (b : Batch) : event :=
  BertCall true grad (b_input_ids b) (b_attention_mask b) None.

Definition eval_call (b : Batch) : event :=
  BertCall false false (b_input_ids b) (b_attention_mask b) None.

(** The running accuracy sum of the inner loop lies between 0 and the
    number of batches seen. *)
Definition sums_in_range (v : epoch_vars) : Prop :=
  (0 <= train_accuracy v /\ train_accuracy v <= nQ (batch_index v))%Q.

End Bookkeeping.

Section Properties.

Context {F : Framework}.
Variable T : Trainer.

(** * Properties *)

(** ** The monad and its loops *)

Lemma bind_val {A B} (m : M A) (k : A -> M B) w :
  val (bind m k w) = val (k (val (m w)) (st (m w))).
Proof. unfold bind. destruct (m w) as [a w1 e1]. simpl. destruct (k a w1). reflexivity. Qed.

Lemma bind_st {A B} (m : M A) (k : A -> M B) w :
  st (bind m k w) = st (k (val (m w)) (st (m w))).
Proof. unfold bind. destruct (m w) as [a w1 e1]. simpl. destruct (k a w1). reflexivity. Qed.

Lemma bind_evs {A B} (m : M A) (k : A -> M B) w :
  evs (bind m k w) = evs (m w) ++ evs (k (val (m w)) (st (m w))).
Proof. unfold bind. destruct (m w) as [a w1 e1]. simpl. destruct (k a w1). reflexivity. Qed.

Ltac run_binds :=
  repeat (progress (rewrite ?bind_val, ?bind_st, ?bind_evs; simpl)).

Lemma for_each_cons {A B} (body : A -> B -> M A) b bs a w :
  for_each body (b :: bs) a w = bind (body a b) (for_each body bs) w.
Proof. reflexivity. Qed.

(** A loop over [l1 ++ l2] is the loop over [l1] followed by the loop over
    [l2]. *)
Lemma for_each_app {A B} (body : A -> B -> M A) l1 l2 : forall a w,
  let r1 := for_each body l1 a w in
  let r2 := for_each body l2 (val r1) (st r1) in
  val (for_each body (l1 ++ l2) a w) = val r2 /\
  st (for_each body (l1 ++ l2) a w) = st r2 /\
  evs (for_each body (l1 ++ l2) a w) = evs r1 ++ evs r2.
Proof.
  induction l1 as [|b l1 IH]; intros a w; cbn zeta.
  - simpl. auto.
  - rewrite <- app_comm_cons, !for_each_cons.
    rewrite !bind_val, !bind_st, !bind_evs.
    destruct (IH (val (body a b w)) (st (body a b w))) as (Hv & Hs & He).
    rewrite Hv, Hs, He, app_assoc. auto.
Qed.

(** A property of events that holds of every iteration holds of the loop. *)
Lemma for_each_Forall {A B} (P : event -> Prop) (body : A -> B -> M A) l :
  (forall a b w, Forall P (evs (body a b w))) ->
  forall a w, Forall P (evs (for_each body l a w)).
Proof.
  intros Hbody. induction l as [|b l IH]; intros a w.
  - constructor.
  - rewrite for_each_cons, bind_evs. apply Forall_app. split; [apply Hbody | apply IH].
Qed.

(** The events of a loop selected by [f], when each iteration contributes
    exactly [g b]. *)
Lemma for_each_filter {A B} (f : event -> bool) (g : B -> list event)
    (body : A -> B -> M A) l :
  (forall a b w, filter f (evs (body a b w)) = g b) ->
  forall a w, filter f (evs (for_each body l a w)) = flat_map g l.
Proof.
  intros Hbody. induction l as [|b l IH]; intros a w.
  - reflexivity.
  - rewrite for_each_cons, bind_evs, filter_app, Hbody, IH. reflexivity.
Qed.

Lemma filter_none {A} (f : A -> bool) (l : list A) :
  Forall (fun x => f x = false) l -> filter f l = [].
Proof.
  induction 1 as [|x l Hx _ IH]; simpl; [reflexivity|]. rewrite Hx. exact IH.
Qed.

(** ** Comparison of rationals *)

Lemma Qltb_lt (x y : Q) : Qltb x y = true <-> (x < y)%Q.
Proof.
  unfold Qltb. rewrite negb_true_iff, <- not_true_iff_false, Qle_bool_iff.
  split; [apply Qnot_le_lt | apply Qlt_not_le].
Qed.

Lemma Qltb_ge (x y : Q) : Qltb x y = false <-> (y <= x)%Q.
Proof.
  unfold Qltb. rewrite negb_false_iff. apply Qle_bool_iff.
Qed.

(** ** The classifier head *)

(** [forward] calls the encoder and then the linear layer, and nothing
    else; its result is the projection of the pooled output itself. *)
Lemma forward_run ids mask tti w :
  evs (forward ids mask tti w) =
    [BertCall (training w) (grad_enabled w) ids mask tti; ClassifierCall] /\
  val (forward ids mask tti w) =
    classifier (params w)
      (snd (bert (params w) (if training w then Some (gen w) else None) ids mask tti)) /\
  st (forward ids mask tti w) =
    (if training w then set_gen (next_generator (gen w)) w else w).
Proof.
  unfold forward, self_bert, self_classifier, draw, bind, get, modify, emit, ret; simpl.
  destruct (training w); simpl; auto.
Qed.

Lemma forward_never_drops ids mask tti w b :
  ~ In (DropoutCall b) (evs (forward ids mask tti w)).
Proof.
  destruct (forward_run ids mask tti w) as (He & _). rewrite He.
  simpl. intros [H | [H | []]]; discriminate.
Qed.

(** ** The metric *)

Lemma count_equal_combine (y_true y_pred : list nat) :
  count_equal y_true y_pred =
    List.length (filter (fun tp => Nat.eqb (fst tp) (snd tp)) (combine y_true y_pred)).
Proof.
  revert y_pred. induction y_true as [|t ts IH]; intros [|p ps]; simpl; try reflexivity.
  rewrite IH. destruct (Nat.eqb t p); reflexivity.
Qed.

Lemma nth_snoc_old {A} (pre : list A) (x d : A) (j : nat) :
  j < List.length pre -> nth j (pre ++ [x]) d = nth j pre d.
Proof. intros Hj. apply app_nth1. exact Hj. Qed.

Lemma nth_snoc_new {A} (pre : list A) (x d : A) :
  nth (List.length pre) (pre ++ [x]) d = x.
Proof. rewrite app_nth2, Nat.sub_diag by lia. reflexivity. Qed.

(** The scan of [argmax_from]: [pre] is the part of the row already seen,
    [bi] the first index of its maximum [b]. *)
Lemma argmax_from_first_max (xs : list Q) : forall (pre : list Q) (bi : nat) (b : Q),
  bi < List.length pre ->
  nth bi pre 0%Q = b ->
  (forall j, j < List.length pre -> (nth j pre 0 <= b)%Q) ->
  (forall j, j < bi -> (nth j pre 0 < b)%Q) ->
  first_max_index (pre ++ xs) (argmax_from bi b (List.length pre) xs).
Proof.
  induction xs as [|x xs IH]; intros pre bi b Hbi Hb Hmax Hfirst.
  - simpl. rewrite app_nil_r. unfold first_max_index. rewrite Hb. auto.
  - simpl. replace (pre ++ x :: xs) with ((pre ++ [x]) ++ xs)
      by (rewrite <- app_assoc; reflexivity).
    replace (S (List.length pre)) with (List.length (pre ++ [x]))
      by (rewrite length_app; simpl; lia).
    destruct (Qltb b x) eqn:E.
    + apply Qltb_lt in E.
      apply IH.
      * rewrite length_app. simpl. lia.
      * apply nth_snoc_new.
      * intros j Hj. rewrite length_app in Hj. simpl in Hj.
        destruct (Nat.eq_dec j (List.length pre)) as [-> | Hne].
        -- rewrite nth_snoc_new. apply Qle_refl.
        -- rewrite nth_snoc_old by lia.
           apply Qlt_le_weak. eapply Qle_lt_trans; [apply Hmax; lia | exact E].
      * intros j Hj. rewrite nth_snoc_old by lia.
        eapply Qle_lt_trans; [apply Hmax; lia | exact E].
    + apply Qltb_ge in E.
      apply IH.
      * rewrite length_app. simpl. lia.
      * rewrite nth_snoc_old by lia. exact Hb.
      * intros j Hj. rewrite length_app in Hj. simpl in Hj.
        destruct (Nat.eq_dec j (List.length pre)) as [-> | Hne].
        -- rewrite nth_snoc_new. exact E.
        -- rewrite nth_snoc_old by lia. apply Hmax. lia.
      * intros j Hj. rewrite nth_snoc_old by lia. apply Hfirst. exact Hj.
Qed.

Lemma argmax_row_first_max (row : list Q) :
  row <> [] -> first_max_index row (argmax_row row).
Proof.
  destruct row as [|x xs]; [congruence|]. intros _.
  apply (argmax_from_first_max xs [x] 0 x).
  - simpl. lia.
  - reflexivity.
  - intros j Hj. simpl in Hj. assert (j = 0) by lia. subst j. apply Qle_refl.
  - intros j Hj. lia.
Qed.

(** C7: [model_evaluate] is the number of examples whose label equals the
    argmax of their logit row, divided by the number of examples, where the
    argmax of a row is the first index that holds a maximal logit; with
    labels [0,1,1,0] and argmaxes [0,0,1,0] it is 3/4 = 0.75. *)
Theorem model_evaluate_argmax_accuracy (y_true : list nat) (y_pred : logits_t) :
  let predicted := map argmax_row (logits_values y_pred) in
  model_evaluate y_true y_pred =
    (Z.of_nat (List.length (filter (fun tp => Nat.eqb (fst tp) (snd tp))
                                   (combine y_true predicted)))
     # Pos.of_nat (List.length y_true)) /\
  (forall row : list Q, row <> [] -> first_max_index row (argmax_row row)) /\
  (y_true = [0; 1; 1; 0] -> predicted = [0; 0; 1; 0] ->
   model_evaluate y_true y_pred = 3 # 4).
Proof.
  intros predicted. split; [|split].
  - unfold model_evaluate, accuracy_score, argmax_dim1. fold predicted.
    rewrite count_equal_combine. reflexivity.
  - exact argmax_row_first_max.
  - intros Ht Hp. unfold model_evaluate, accuracy_score, argmax_dim1.
    fold predicted. rewrite Ht, Hp. reflexivity.
Qed.

(** ** One training step *)

(** C2: a training step calls, in this order, the model (forward pass),
    the cross-entropy loss on the integer labels, [zero_grad], [backward],
    one optimizer step and one scheduler step.  The gradient buffer after
    the step holds the gradient of this batch's loss alone, the parameter
    update is computed from it, and neither the new state nor the new
    optimizer depends on what the buffer held before the step. *)
Theorem train_batch_order_and_fresh_gradients
    (epoch_index : nat) (v : epoch_vars) (batch : Batch) (w : world) :
  let r := train_batch epoch_index v batch w in
  let fw := forward (b_input_ids batch) (b_attention_mask batch) None w in
  let loss := cross_entropy (val fw) (b_labels batch) in
  (exists mean_loss mean_acc,
     evs r =
       [ToDevice K_input_ids; ToDevice K_token_type_ids;
        ToDevice K_attention_mask; ToDevice K_labels] ++
       evs fw ++
       [CrossEntropyLoss (b_labels batch); ZeroGrad; Backward;
        OptimizerStep (sched (opt v)); SchedulerStep;
        StepLog epoch_index (batch_index v + 1) mean_loss mean_acc
                (scheduler_advance (sched (opt v)))]) /\
  grad_buf (st r) = Some (autograd loss) /\
  params (st r) =
    fst (adamw_update (moments (opt v)) (sched (opt v)) (params w)
                      (Some (autograd loss))) /\
  sched (opt (val r)) = scheduler_advance (sched (opt v)) /\
  (forall g : option grads,
     st (train_batch epoch_index v batch (set_grad_buf g w)) = st r /\
     val (train_batch epoch_index v batch (set_grad_buf g w)) = val r).
Proof.
  unfold train_batch, forward, self_bert, self_classifier, draw, to_device,
    cross_entropy_loss, optimizer_zero_grad, loss_backward, optimizer_step,
    scheduler_step, bind, get, modify, emit, ret; simpl.
  destruct (training w); simpl; repeat split; eauto.
Qed.

(** A training step touches neither [best_acc] nor the files, and emits
    no checkpoint write. *)
Lemma train_batch_frame epoch_index v batch w :
  let r := train_batch epoch_index v batch w in
  best_acc (st r) = best_acc w /\ files (st r) = files w /\
  (forall p, filter (is_save_to p) (evs r) = []) /\
  Forall without_segment_ids (evs r) /\
  sched (opt (val r)) = scheduler_advance (sched (opt v)).
Proof.
  unfold train_batch, forward, self_bert, self_classifier, draw, to_device,
    cross_entropy_loss, optimizer_zero_grad, loss_backward, optimizer_step,
    scheduler_step, bind, get, modify, emit, ret; simpl.
  destruct (training w); simpl; repeat split; auto;
    repeat (constructor; simpl; auto).
Qed.

Lemma train_loop_frame epoch_index l : forall v w,
  let r := for_each (train_batch epoch_index) l v w in
  best_acc (st r) = best_acc w /\ files (st r) = files w /\
  (forall p, filter (is_save_to p) (evs r) = []) /\
  Forall without_segment_ids (evs r) /\
  last_epoch (sched (opt (val r))) = last_epoch (sched (opt v)) + List.length l.
Proof.
  induction l as [|b l IH]; intros v w; cbn zeta.
  - simpl. repeat split; auto.
  - rewrite for_each_cons, bind_val, bind_st, bind_evs.
    destruct (train_batch_frame epoch_index v b w) as (Hb & Hf & Hs & Ht & Hk).
    destruct (IH (val (train_batch epoch_index v b w))
                 (st (train_batch epoch_index v b w))) as (Hb' & Hf' & Hs' & Ht' & Hk').
    repeat split.
    + congruence.
    + congruence.
    + intros p. rewrite filter_app, Hs, Hs'. reflexivity.
    + apply Forall_app; auto.
    + rewrite Hk', Hk. simpl. lia.
Qed.

(** ** Evaluation passes *)

(** In evaluation mode one iteration leaves the whole state as it was. *)
Lemma eval_batch_run acc b w :
  training w = false ->
  let r := eval_batch acc b w in
  val r = (fst acc ++ b_labels b, snd acc ++ predict (params w) b) /\
  st r = w /\
  evs r = eval_events (grad_enabled w) b.
Proof.
  intros Hw.
  unfold eval_batch, forward, self_bert, self_classifier, draw, to_device,
    bind, get, modify, emit, ret, predict, eval_events; simpl.
  rewrite Hw. simpl. auto.
Qed.

Lemma eval_loop_run l : forall acc w,
  training w = false ->
  let r := for_each eval_batch l acc w in
  val r = (fst acc ++ flat_map b_labels l, snd acc ++ flat_map (predict (params w)) l) /\
  st r = w /\
  evs r = flat_map (eval_events (grad_enabled w)) l.
Proof.
  induction l as [|b l IH]; intros acc w Hw; cbn zeta.
  - simpl. rewrite !app_nil_r. destruct acc; auto.
  - rewrite for_each_cons, bind_val, bind_st, bind_evs.
    destruct (eval_batch_run acc b w Hw) as (Hv & Hs & He).
    rewrite Hv, Hs, He.
    destruct (IH (fst acc ++ b_labels b, snd acc ++ predict (params w) b) w Hw)
      as (Hv' & Hs' & He').
    rewrite Hv', Hs', He'. simpl. rewrite <- !app_assoc. auto.
Qed.

(** What a pass under [no_grad] in evaluation mode does. *)
Lemma no_grad_eval_run l w :
  training w = false ->
  let r := no_grad (for_each eval_batch l ([], [])) w in
  val r = (flat_map b_labels l, flat_map (predict (params w)) l) /\
  st r = set_grad_enabled (grad_enabled w) (set_grad_enabled false w) /\
  evs r = NoGradEnter :: flat_map (eval_events false) l ++ [NoGradExit].
Proof.
  intros Hw. cbn zeta.
  assert (Hw' : training (set_grad_enabled false w) = false) by exact Hw.
  destruct (eval_loop_run l ([], []) (set_grad_enabled false w) Hw') as (Hv & Hs & He).
  simpl in Hv, He.
  unfold no_grad.
  run_binds.
  rewrite Hv, Hs, He. simpl. auto.
Qed.

Lemma model_valid_run l w :
  let r := model_valid l w in
  val r = split_accuracy (params w) l /\
  st r = set_grad_enabled (grad_enabled w)
           (set_grad_enabled false (set_training false w)) /\
  evs r = ModelEvalMode :: NoGradEnter :: flat_map (eval_events false) l ++ [NoGradExit].
Proof.
  cbn zeta.
  assert (Hw : training (set_training false w) = false) by reflexivity.
  destruct (no_grad_eval_run l (set_training false w) Hw) as (Hv & Hs & He).
  unfold model_valid, model_eval_mode.
  run_binds.
  rewrite Hv, Hs, He. simpl. rewrite app_nil_r. auto.
Qed.

Lemma eval_events_frozen l :
  Forall frozen_call (flat_map (eval_events false) l).
Proof.
  induction l as [|b l IH]; simpl; [constructor|].
  repeat (constructor; simpl; auto).
Qed.

Lemma eval_events_bert_calls gr l :
  filter is_bert_call (flat_map (eval_events gr) l) =
    map (fun b => BertCall false gr (b_input_ids b) (b_attention_mask b) None) l.
Proof.
  induction l as [|b l IH]; simpl; [reflexivity|]. rewrite IH. reflexivity.
Qed.

Lemma eval_events_no_segments gr l :
  Forall without_segment_ids (flat_map (eval_events gr) l).
Proof.
  induction l as [|b l IH]; simpl; [constructor|].
  repeat (constructor; simpl; auto).
Qed.

Lemma eval_events_no_save p gr l :
  filter (is_save_to p) (flat_map (eval_events gr) l) = [].
Proof.
  induction l as [|b l IH]; simpl; [reflexivity|]. exact IH.
Qed.

(** C8: the validation pass calls the model once per validation batch,
    always in evaluation mode with autograd switched off; it returns the
    accuracy of the current parameters over all labels of the split; and
    it leaves the parameters (and gradient buffers, best accuracy, files
    and autograd switch) as they were. *)
Theorem model_valid_frozen_full_pass (l : list Batch) (w : world) :
  let r := model_valid l w in
  Forall frozen_call (evs r) /\
  filter is_bert_call (evs r) =
    map (fun b => BertCall false false (b_input_ids b) (b_attention_mask b) None) l /\
  val r = accuracy_score (flat_map b_labels l) (flat_map (predict (params w)) l) /\
  params (st r) = params w /\
  grad_buf (st r) = grad_buf w /\
  best_acc (st r) = best_acc w /\
  files (st r) = files w /\
  grad_enabled (st r) = grad_enabled w /\
  training (st r) = false.
Proof.
  cbn zeta. destruct (model_valid_run l w) as (Hv & Hs & He).
  rewrite Hv, Hs, He. repeat split.
  - constructor; [exact I|]. constructor; [exact I|].
    apply Forall_app. split; [apply eval_events_frozen|].
    constructor; [exact I | constructor].
  - simpl. rewrite filter_app, eval_events_bert_calls. simpl. apply app_nil_r.
Qed.

(** ** The test phase *)

Lemma paths_differ : String.eqb best_model_path most_model_path = false.
Proof. reflexivity. Qed.

Lemma model_test_run sd w :
  files w best_model_path = Some sd ->
  let r := model_test T w in
  let y_true := flat_map b_labels (test_loader T) in
  let y_pred := flat_map (predict sd) (test_loader T) in
  val r = inr tt /\
  st r = set_grad_enabled (grad_enabled w)
           (set_grad_enabled false (set_training false (set_params sd w))) /\
  evs r =
    [Load best_model_path; LoadStateDict sd; ModelEvalMode; NoGradEnter] ++
    flat_map (eval_events false) (test_loader T) ++
    [NoGradExit;
     PrintTestAccuracy (accuracy_score y_true y_pred);
     PrintReport (classification_report y_true y_pred)].
Proof.
  intros Hf. cbn zeta.
  assert (Hw : training (set_training false (set_params sd w)) = false) by reflexivity.
  destruct (no_grad_eval_run (test_loader T) _ Hw) as (Hv & Hs & He).
  unfold model_test, torch_load.
  run_binds. rewrite Hf. unfold load_state_dict, model_eval_mode.
  run_binds. rewrite Hv, Hs, He. simpl.
  rewrite <- app_assoc. auto.
Qed.

Lemma model_test_missing w :
  files w best_model_path = None ->
  val (model_test T w) = inl (FileNotFoundError best_model_path) /\
  st (model_test T w) = w /\
  evs (model_test T w) = [Load best_model_path].
Proof.
  intros Hf. unfold model_test, torch_load. run_binds. rewrite Hf. simpl. auto.
Qed.

(** *** The per-class report *)

Lemma count_pairs_examples (f : nat -> nat -> bool) (y_true y_pred : list nat) :
  count_pairs f y_true y_pred = count_examples f y_true y_pred.
Proof.
  unfold count_examples. revert y_pred.
  induction y_true as [|t ts IH]; intros [|p ps]; simpl; try reflexivity.
  rewrite IH. destruct (f t p); reflexivity.
Qed.

Lemma count_occ_filter_eqb (l : list nat) (c : nat) :
  count_occ Nat.eq_dec l c = List.length (filter (Nat.eqb c) l).
Proof.
  induction l as [|x l IH]; simpl; [reflexivity|].
  destruct (Nat.eq_dec x c) as [-> | Hne].
  - rewrite Nat.eqb_refl. simpl. rewrite IH. reflexivity.
  - destruct (Nat.eqb_spec c x) as [-> | _]; [congruence | exact IH].
Qed.

Lemma insert_sorted_In (c x : nat) (l : list nat) :
  In x (insert_sorted c l) <-> x = c \/ In x l.
Proof.
  induction l as [|y l IH]; simpl.
  - intuition.
  - destruct (Nat.ltb c y); [simpl; intuition|].
    destruct (Nat.eqb_spec c y) as [-> | Hne]; simpl; [intuition|].
    rewrite IH. intuition.
Qed.

Lemma insert_sorted_sorted (c : nat) (l : list nat) :
  StronglySorted lt l -> StronglySorted lt (insert_sorted c l).
Proof.
  induction 1 as [|y l Hs IH Hy]; simpl.
  - constructor; constructor.
  - destruct (Nat.ltb_spec c y) as [Hlt | Hge].
    + constructor; [constructor; assumption|].
      constructor; [exact Hlt|].
      eapply Forall_impl; [|exact Hy]. intros z Hz. simpl in Hz. lia.
    + destruct (Nat.eqb_spec c y) as [-> | Hne].
      * constructor; assumption.
      * constructor; [exact IH|].
        apply Forall_forall. intros z Hz. apply insert_sorted_In in Hz.
        destruct Hz as [-> | Hz]; [lia|].
        rewrite Forall_forall in Hy. apply Hy. exact Hz.
Qed.

Lemma unique_labels_In (y_true y_pred : list nat) (c : nat) :
  In c (unique_labels y_true y_pred) <-> In c y_true \/ In c y_pred.
Proof.
  unfold unique_labels. rewrite <- in_app_iff.
  induction (y_true ++ y_pred) as [|x l IH]; simpl; [tauto|].
  rewrite insert_sorted_In, IH. intuition.
Qed.

Lemma unique_labels_sorted (y_true y_pred : list nat) :
  StronglySorted lt (unique_labels y_true y_pred).
Proof.
  unfold unique_labels.
  induction (y_true ++ y_pred) as [|x l IH]; simpl; [constructor|].
  apply insert_sorted_sorted. exact IH.
Qed.

Lemma report_row_documented (y_true y_pred : list nat) (c : nat) :
  row_as_documented y_true y_pred (report_row y_true y_pred c).
Proof.
  unfold row_as_documented, report_row. cbn [row_class row_precision row_recall
    row_f1 row_support].
  rewrite !count_pairs_examples, count_occ_filter_eqb. auto.
Qed.

(** The report lists the labels that occur among the true or the predicted
    labels, each once, in increasing order, and every row holds the
    documented quantities of its class. *)
Lemma classification_report_rows (y_true y_pred : list nat) :
  let report := map (report_row y_true y_pred) (unique_labels y_true y_pred) in
  (forall c, In c (map row_class report) <-> In c y_true \/ In c y_pred) /\
  StronglySorted lt (map row_class report) /\
  Forall (row_as_documented y_true y_pred) report.
Proof.
  cbn zeta.
  assert (Hcl : map row_class (map (report_row y_true y_pred)
                                   (unique_labels y_true y_pred)) =
                unique_labels y_true y_pred).
  { rewrite map_map. simpl. apply map_id. }
  rewrite Hcl. split; [|split].
  - intros c. apply unique_labels_In.
  - apply unique_labels_sorted.
  - apply Forall_forall. intros row Hrow. apply in_map_iff in Hrow.
    destruct Hrow as (c & <- & _). apply report_row_documented.
Qed.

(** C4: the test phase starts when [model_train] has returned.  When the
    best-checkpoint file holds [sd], it loads [sd] into the model, whatever
    the most-recent file holds; calls the model once per test batch, in
    order, in evaluation mode with autograd switched off; and prints the
    accuracy of [sd] over the whole test set and then the per-class report.
    The report has one row for every label that occurs among the true or
    the predicted test labels, in increasing order of the label, and a row
    holds its class's precision TP / (TP + FP), recall TP / (TP + FN), F1
    (their harmonic mean) and support (the number of test examples of the
    class). *)
Theorem model_test_best_checkpoint_one_pass (sd : state_dict) (w : world) :
  files w best_model_path = Some sd ->
  let r := model_test T w in
  let y_true := flat_map b_labels (test_loader T) in
  let y_pred := flat_map (predict sd) (test_loader T) in
  val r = inr tt /\
  params (st r) = sd /\
  (exists pass,
     evs r = [Load best_model_path; LoadStateDict sd; ModelEvalMode; NoGradEnter] ++
             pass ++
             [NoGradExit;
              PrintTestAccuracy (accuracy_score y_true y_pred);
              PrintReport (map (report_row y_true y_pred) (unique_labels y_true y_pred))] /\
     Forall frozen_call pass /\
     filter is_bert_call pass =
       map (fun b => BertCall false false (b_input_ids b) (b_attention_mask b) None)
           (test_loader T)) /\
  (forall recent : state_dict,
     val (model_test T (write_file most_model_path recent w)) = val r /\
     evs (model_test T (write_file most_model_path recent w)) = evs r /\
     params (st (model_test T (write_file most_model_path recent w))) = sd) /\
  (forall w0 : world,
     evs (main T w0) = evs (model_train T w0) ++ evs (model_test T (st (model_train T w0)))) /\
  (exists report,
     In (PrintReport report) (evs r) /\
     (forall c, In c (map row_class report) <-> In c y_true \/ In c y_pred) /\
     StronglySorted lt (map row_class report) /\
     Forall (row_as_documented y_true y_pred) report /\
     accuracy_score y_true y_pred =
       (Z.of_nat (count_examples Nat.eqb y_true y_pred) # Pos.of_nat (List.length y_true))).
Proof.
  intros Hf. cbn zeta.
  destruct (model_test_run sd w Hf) as (Hv & Hs & He).
  split; [exact Hv|].
  split; [rewrite Hs; reflexivity|].
  split.
  { exists (flat_map (eval_events false) (test_loader T)).
    split; [exact He|]. split; [apply eval_events_frozen | apply eval_events_bert_calls]. }
  split.
  { intros recent.
    destruct (model_test_run sd (write_file most_model_path recent w) Hf)
      as (Hv' & Hs' & He').
    rewrite Hv, He, Hv', He', Hs'. auto. }
  split.
  { intros w0. unfold main. rewrite bind_evs. reflexivity. }
  destruct (classification_report_rows
              (flat_map b_labels (test_loader T))
              (flat_map (predict sd) (test_loader T))) as (Hcl & Hso & Hrows).
  eexists. split; [|split; [exact Hcl | split; [exact Hso | split; [exact Hrows|]]]].
  - rewrite He. apply in_or_app. right. apply in_or_app. right.
    right. right. left. reflexivity.
  - unfold accuracy_score, count_examples. rewrite count_equal_combine. reflexivity.
Qed.

(** ** Checkpoints at the end of an epoch *)

Lemma save_checkpoints_run acc w :
  let r := save_checkpoints acc w in
  params (st r) = params w /\
  best_acc (st r) = (if Qltb (best_acc w) acc then acc else best_acc w) /\
  files (st r) most_model_path = Some (params w) /\
  files (st r) best_model_path =
    (if Qltb (best_acc w) acc then Some (params w) else files w best_model_path) /\
  evs r =
    (if Qltb (best_acc w) acc then [Save best_model_path (params w)] else []) ++
    [Save most_model_path (params w); PrintEpoch acc (best_acc (st r))].
Proof.
  unfold save_checkpoints, torch_save, bind, get, modify, emit, ret; simpl.
  destruct (Qltb (best_acc w) acc); simpl; auto.
Qed.

(** An epoch is its training loop, then the validation pass, then the
    checkpoint policy applied to the measured accuracy. *)
Lemma train_epoch_run o i w :
  let tr := epoch_trained T o i w in
  let va := model_valid (valid_loader T) (st tr) in
  let sv := save_checkpoints (val va) (st va) in
  val (train_epoch T o i w) = opt (val tr) /\
  st (train_epoch T o i w) = st sv /\
  evs (train_epoch T o i w) =
    ModelTrainMode :: evs tr ++ evs va ++ ValidLog (i + 1) (val va) :: evs sv.
Proof.
  cbn zeta. unfold train_epoch, model_train_mode, epoch_trained.
  run_binds. rewrite !app_nil_r. auto.
Qed.

(** Where an epoch's checkpoint writes come from, and what the epoch does
    to the trainer's record and files. *)
Lemma train_epoch_checkpoints o i w :
  let r := train_epoch T o i w in
  let acc := epoch_acc T o i w in
  let improved := Qltb (best_acc w) acc in
  best_acc (st r) = (if improved then acc else best_acc w) /\
  files (st r) most_model_path = Some (params (st r)) /\
  files (st r) best_model_path =
    (if improved then Some (params (st r)) else files w best_model_path) /\
  acc = split_accuracy (params (st r)) (valid_loader T) /\
  (exists pre,
     evs r = pre ++
       (if improved then [Save best_model_path (params (st r))] else []) ++
       [Save most_model_path (params (st r)); PrintEpoch acc (best_acc (st r))] /\
     forall p, filter (is_save_to p) pre = []).
Proof.
  cbn zeta. destruct (train_epoch_run o i w) as (_ & Hs & He).
  rewrite Hs, He. clear Hs He.
  unfold epoch_acc.
  set (tr := epoch_trained T o i w).
  destruct (train_loop_frame (i + 1) (train_loader T i)
              {| opt := o; train_loss_sum := 0; train_accuracy := 0; batch_index := 0 |}
              (set_training true w)) as (Hb & Hf & Hsv & _ & _).
  fold (epoch_trained T o i w) in Hb, Hf, Hsv. fold tr in Hb, Hf, Hsv.
  simpl in Hb, Hf.
  destruct (model_valid_run (valid_loader T) (st tr)) as (Hv & Hvs & Hve).
  set (va := model_valid (valid_loader T) (st tr)) in *.
  destruct (save_checkpoints_run (val va) (st va)) as (Hp & Hba & Hm & Hbf & Hse).
  assert (Hbest : best_acc (st va) = best_acc w) by (rewrite Hvs; simpl; exact Hb).
  assert (Hfiles : files (st va) = files w) by (rewrite Hvs; simpl; exact Hf).
  assert (Hpar : params (st va) = params (st tr)) by (rewrite Hvs; reflexivity).
  rewrite Hbest in *. rewrite Hfiles in *. rewrite Hp.
  repeat split; auto.
  - rewrite Hv, Hpar. reflexivity.
  - exists (ModelTrainMode :: evs tr ++ evs va ++ [ValidLog (i + 1) (val va)]).
    split.
    + rewrite Hse. simpl. rewrite <- !app_assoc. reflexivity.
    + intros p. simpl. rewrite !filter_app, Hsv, Hve. simpl.
      rewrite filter_app, eval_events_no_save. reflexivity.
Qed.

(** ** The run of [model_train] *)

Lemma run_epochs_S n o w :
  let r := run_epochs T n o w in
  let e := train_epoch T (val r) n (st r) in
  val (run_epochs T (S n) o w) = val e /\
  st (run_epochs T (S n) o w) = st e /\
  evs (run_epochs T (S n) o w) = evs r ++ evs e.
Proof.
  cbn zeta. unfold run_epochs. rewrite seq_S. simpl.
  destruct (for_each_app (train_epoch T) (seq 0 n) [n] o w) as (Hv & Hs & He).
  rewrite Hv, Hs, He. simpl. run_binds. rewrite app_nil_r. auto.
Qed.

Lemma model_train_run w :
  st (model_train T w) = st (run_state T (epochs T) w) /\
  evs (model_train T w) = evs (run_state T (epochs T) w).
Proof.
  unfold model_train, run_state. run_binds. rewrite app_nil_r. auto.
Qed.

Lemma best_acc_grows_in_epoch o i w :
  (best_acc w <= best_acc (st (train_epoch T o i w)))%Q.
Proof.
  destruct (train_epoch_checkpoints o i w) as (Hb & _). rewrite Hb.
  destruct (Qltb (best_acc w) (epoch_acc T o i w)) eqn:E.
  - apply Qlt_le_weak, Qltb_lt, E.
  - apply Qle_refl.
Qed.

Lemma best_acc_grows_in_run k : forall n o w,
  (best_acc (st (run_epochs T n o w)) <= best_acc (st (run_epochs T (n + k) o w)))%Q.
Proof.
  induction k as [|k IH]; intros n o w.
  - rewrite Nat.add_0_r. apply Qle_refl.
  - rewrite Nat.add_succ_r.
    destruct (run_epochs_S (n + k) o w) as (_ & Hs & _). rewrite Hs.
    eapply Qle_trans; [apply IH | apply best_acc_grows_in_epoch].
Qed.

(** C1: in every epoch, a write to the best-checkpoint file happens if and
    only if the validation accuracy measured in that epoch is strictly
    greater than [best_acc] as it stood when the epoch began; [best_acc]
    starts at 0 and never decreases, within an epoch or along the run. *)
Theorem best_checkpoint_iff_strictly_better (o : optim) (i : nat) (w : world) :
  let r := train_epoch T o i w in
  let acc := epoch_acc T o i w in
  ((exists sd, In (Save best_model_path sd) (evs r)) <-> (best_acc w < acc)%Q) /\
  filter (is_save_to best_model_path) (evs r) =
    (if Qltb (best_acc w) acc then [Save best_model_path (params (st r))] else []) /\
  best_acc (st r) = (if Qltb (best_acc w) acc then acc else best_acc w) /\
  (best_acc w <= best_acc (st r))%Q /\
  (forall n k o' w',
     (best_acc (st (run_epochs T n o' w')) <= best_acc (st (run_epochs T (n + k) o' w')))%Q) /\
  (forall sd g fs, best_acc (init_world sd g fs) = 0%Q).
Proof.
  cbn zeta.
  destruct (train_epoch_checkpoints o i w) as (Hb & _ & _ & _ & pre & He & Hpre).
  assert (Hfil : filter (is_save_to best_model_path) (evs (train_epoch T o i w)) =
                 if Qltb (best_acc w) (epoch_acc T o i w)
                 then [Save best_model_path (params (st (train_epoch T o i w)))] else []).
  { rewrite He, !filter_app, Hpre.
    destruct (Qltb (best_acc w) (epoch_acc T o i w)); reflexivity. }
  repeat split.
  - intros [sd Hin].
    assert (Hin' : In (Save best_model_path sd)
                      (filter (is_save_to best_model_path) (evs (train_epoch T o i w)))).
    { apply filter_In. split; [exact Hin | reflexivity]. }
    rewrite Hfil in Hin'.
    destruct (Qltb (best_acc w) (epoch_acc T o i w)) eqn:E; [|destruct Hin'].
    apply Qltb_lt, E.
  - intros Hlt. apply Qltb_lt in Hlt.
    exists (params (st (train_epoch T o i w))).
    assert (Hin' : In (Save best_model_path (params (st (train_epoch T o i w))))
                      (filter (is_save_to best_model_path) (evs (train_epoch T o i w)))).
    { rewrite Hfil, Hlt. left. reflexivity. }
    apply filter_In in Hin'. apply Hin'.
  - exact Hfil.
  - exact Hb.
  - apply best_acc_grows_in_epoch.
  - intros n k o' w'. apply best_acc_grows_in_run.
Qed.

Lemma most_saves_in_epoch o i w :
  filter (is_save_to most_model_path) (evs (train_epoch T o i w)) =
    [Save most_model_path (params (st (train_epoch T o i w)))].
Proof.
  destruct (train_epoch_checkpoints o i w) as (_ & _ & _ & _ & pre & He & Hpre).
  rewrite He, !filter_app, Hpre.
  destruct (Qltb (best_acc w) (epoch_acc T o i w)); reflexivity.
Qed.

Lemma most_saves_in_run n : forall o w,
  List.length (filter (is_save_to most_model_path) (evs (run_epochs T n o w))) = n.
Proof.
  induction n as [|n IH]; intros o w.
  - reflexivity.
  - destruct (run_epochs_S n o w) as (_ & _ & He).
    rewrite He, filter_app, length_app, IH, most_saves_in_epoch. simpl. lia.
Qed.

(** C6: every epoch writes the most-recent checkpoint exactly once,
    whatever the validation accuracy; the write is the epoch's last action
    before its summary line and stores the parameters the epoch ends with.
    A run of [epochs] epochs therefore writes it [epochs] times. *)
Theorem most_recent_saved_once_per_epoch (o : optim) (i : nat) (w : world) :
  let r := train_epoch T o i w in
  filter (is_save_to most_model_path) (evs r) =
    [Save most_model_path (params (st r))] /\
  (exists pre acc best,
     evs r = pre ++ [Save most_model_path (params (st r)); PrintEpoch acc best]) /\
  files (st r) most_model_path = Some (params (st r)) /\
  (forall n o' w',
     List.length (filter (is_save_to most_model_path) (evs (run_epochs T n o' w'))) = n) /\
  (forall w',
     List.length (filter (is_save_to most_model_path) (evs (model_train T w'))) = epochs T).
Proof.
  cbn zeta.
  destruct (train_epoch_checkpoints o i w) as (_ & Hm & _ & _ & pre & He & _).
  repeat split.
  - apply most_saves_in_epoch.
  - eexists _, _, _. rewrite He, app_assoc. reflexivity.
  - exact Hm.
  - intros n o' w'. apply most_saves_in_run.
  - intros w'. destruct (model_train_run w') as (_ & He'). rewrite He'.
    apply most_saves_in_run.
Qed.

(** ** Segment ids *)

Lemma train_epoch_no_segments o i w :
  Forall without_segment_ids (evs (train_epoch T o i w)).
Proof.
  destruct (train_epoch_run o i w) as (_ & _ & He). rewrite He. clear He.
  destruct (train_loop_frame (i + 1) (train_loader T i)
              {| opt := o; train_loss_sum := 0; train_accuracy := 0; batch_index := 0 |}
              (set_training true w)) as (_ & _ & _ & Htr & _).
  fold (epoch_trained T o i w) in Htr.
  destruct (model_valid_run (valid_loader T) (st (epoch_trained T o i w))) as (_ & _ & Hve).
  destruct (save_checkpoints_run
              (val (model_valid (valid_loader T) (st (epoch_trained T o i w))))
              (st (model_valid (valid_loader T) (st (epoch_trained T o i w)))))
    as (_ & _ & _ & _ & Hse).
  rewrite Hve, Hse.
  constructor; [exact I|]. apply Forall_app. split; [exact Htr|].
  apply Forall_app. split.
  - constructor; [exact I|]. constructor; [exact I|].
    apply Forall_app. split; [apply eval_events_no_segments|].
    constructor; [exact I | constructor].
  - constructor; [exact I|]. apply Forall_app. split.
    + destruct (Qltb _ _); repeat (constructor; simpl; auto).
    + repeat (constructor; simpl; auto).
Qed.

Lemma run_epochs_no_segments n : forall o w,
  Forall without_segment_ids (evs (run_epochs T n o w)).
Proof.
  induction n as [|n IH]; intros o w.
  - constructor.
  - destruct (run_epochs_S n o w) as (_ & _ & He). rewrite He.
    apply Forall_app. split; [apply IH | apply train_epoch_no_segments].
Qed.

Lemma model_test_no_segments w :
  Forall without_segment_ids (evs (model_test T w)).
Proof.
  destruct (files w best_model_path) as [sd|] eqn:Hf.
  - destruct (model_test_run sd w Hf) as (_ & _ & He). rewrite He.
    apply Forall_app. split; [repeat (constructor; simpl; auto)|].
    apply Forall_app. split; [apply eval_events_no_segments|].
    repeat (constructor; simpl; auto).
  - destruct (model_test_missing w Hf) as (_ & _ & He). rewrite He.
    repeat (constructor; simpl; auto).
Qed.

(** C9: every call of the encoder in training, validation and testing
    passes [token_type_ids = None]: the model is called with input ids and
    attention mask only.  A training step does move the batch's
    [token_type_ids] to the device, as its second action; an evaluation
    step does not touch it. *)
Theorem segment_ids_never_reach_the_encoder (w : world) :
  Forall without_segment_ids (evs (main T w)) /\
  (forall epoch_index v batch w',
     nth_error (evs (train_batch epoch_index v batch w')) 1 =
       Some (ToDevice K_token_type_ids) /\
     filter is_bert_call (evs (train_batch epoch_index v batch w')) =
       [BertCall (training w') (grad_enabled w')
                 (b_input_ids batch) (b_attention_mask batch) None]) /\
  (forall acc batch w',
     ~ In (ToDevice K_token_type_ids) (evs (eval_batch acc batch w')) /\
     filter is_bert_call (evs (eval_batch acc batch w')) =
       [BertCall (training w') (grad_enabled w')
                 (b_input_ids batch) (b_attention_mask batch) None]).
Proof.
  split; [|split].
  - unfold main. rewrite bind_evs. apply Forall_app. split.
    + destruct (model_train_run w) as (_ & He). rewrite He.
      apply run_epochs_no_segments.
    + apply model_test_no_segments.
  - intros epoch_index v batch w'.
    unfold train_batch, forward, self_bert, self_classifier, draw, to_device,
      cross_entropy_loss, optimizer_zero_grad, loss_backward, optimizer_step,
      scheduler_step, bind, get, modify, emit, ret; simpl. auto.
  - intros acc batch w'.
    unfold eval_batch, forward, self_bert, self_classifier, draw, to_device,
      bind, get, modify, emit, ret; simpl.
    split; [|reflexivity].
    intros H. repeat (destruct H as [H | H]; [discriminate H|]). exact H.
Qed.

(** ** Runs that never improve *)

Lemma no_improvement_run w :
  best_acc w = 0%Q ->
  forall n,
    (forall i, i < n -> (run_acc T i w <= 0)%Q) ->
    let r := run_state T n w in
    best_acc (st r) = 0%Q /\
    files (st r) best_model_path = files w best_model_path /\
    filter (is_save_to best_model_path) (evs r) = [].
Proof.
  intros H0 n. induction n as [|n IH]; intros Hacc; cbn zeta.
  - simpl. auto.
  - destruct IH as (Hb & Hf & He); [intros i Hi; apply Hacc; lia|].
    unfold run_state in *.
    destruct (run_epochs_S n (new_optim T w) w) as (_ & Hs' & He').
    rewrite Hs', He'.
    set (r := run_epochs T n (new_optim T w) w) in *.
    destruct (train_epoch_checkpoints (val r) n (st r))
      as (Hb1 & _ & Hf1 & _ & pre & Hev & Hpre).
    assert (Hno : Qltb (best_acc (st r)) (epoch_acc T (val r) n (st r)) = false).
    { rewrite Hb. apply Qltb_ge. apply (Hacc n). lia. }
    rewrite Hno in *.
    repeat split.
    + rewrite Hb1. exact Hb.
    + rewrite Hf1. exact Hf.
    + rewrite filter_app, He, Hev, !filter_app, Hpre. reflexivity.
Qed.

(** C10, as amended: when no epoch of a run measures a validation accuracy
    above 0, training never writes the best-checkpoint file, which is left
    as the run found it.  If the file did not exist when the run began, the
    load at the start of the test phase fails and the run ends with that
    exception, no test pass having been made; if it did exist, the test
    phase loads that older file. *)
Theorem no_improvement_no_best_checkpoint
    (sd : state_dict) (g : generator) (fs : string -> option state_dict) :
  let w := init_world sd g fs in
  (forall i, i < epochs T -> (run_acc T i w <= 0)%Q) ->
  filter (is_save_to best_model_path) (evs (model_train T w)) = [] /\
  files (st (model_train T w)) best_model_path = fs best_model_path /\
  (fs best_model_path = None ->
   val (main T w) = inl (FileNotFoundError best_model_path) /\
   evs (main T w) = evs (model_train T w) ++ [Load best_model_path]) /\
  (forall old, fs best_model_path = Some old ->
   val (main T w) = inr tt /\ params (st (main T w)) = old).
Proof.
  intros w Hacc.
  destruct (no_improvement_run w eq_refl (epochs T) Hacc) as (_ & Hf & He).
  destruct (model_train_run w) as (Hs' & He').
  assert (Hfiles : files (st (model_train T w)) best_model_path = fs best_model_path).
  { rewrite Hs'. exact Hf. }
  split; [rewrite He'; exact He|]. split; [exact Hfiles|]. split.
  - intros Hnone. rewrite Hnone in Hfiles.
    destruct (model_test_missing (st (model_train T w)) Hfiles) as (Hv & _ & Hev).
    unfold main. rewrite bind_val, bind_evs, Hv, Hev. auto.
  - intros old Hold. rewrite Hold in Hfiles.
    destruct (model_test_run old (st (model_train T w)) Hfiles) as (Hv & Hst & _).
    unfold main. rewrite bind_val, bind_st, Hv, Hst. auto.
Qed.


Lemma best_file_matches_epoch o i w :
  (0 <= best_acc w)%Q -> best_file_matches T w ->
  best_file_matches T (st (train_epoch T o i w)).
Proof.
  intros Hnn Hinv.
  destruct (train_epoch_checkpoints o i w) as (Hb & _ & Hf & Hacc & _).
  unfold best_file_matches. rewrite Hb, Hf.
  destruct (Qltb (best_acc w) (epoch_acc T o i w)).
  - intros _. eexists. split; [reflexivity|]. symmetry. exact Hacc.
  - exact Hinv.
Qed.

Lemma best_file_matches_run n : forall sd g fs,
  best_file_matches T (st (run_state T n (init_world sd g fs))).
Proof.
  intros sd g fs. induction n as [|n IH].
  - intros H. simpl in H. apply Qlt_irrefl in H. destruct H.
  - unfold run_state in *.
    destruct (run_epochs_S n (new_optim T (init_world sd g fs)) (init_world sd g fs))
      as (_ & Hs & _).
    rewrite Hs. apply best_file_matches_epoch; [|exact IH].
    apply (Qle_trans _ (best_acc (st (run_epochs T 0 (new_optim T (init_world sd g fs))
                                                 (init_world sd g fs))))).
    + apply Qle_refl.
    + apply (best_acc_grows_in_run n 0).
Qed.

(** ** The learning-rate schedule *)

Lemma iter_scheduler_advance k s :
  Nat.iter k scheduler_advance s =
    {| num_warmup_steps := num_warmup_steps s;
       num_training_steps := num_training_steps s;
       last_epoch := last_epoch s + k |}.
Proof.
  induction k as [|k IH]; simpl.
  - rewrite Nat.add_0_r. destruct s; reflexivity.
  - rewrite IH. unfold scheduler_advance. simpl. f_equal. lia.
Qed.

Lemma train_loop_sched epoch_index l : forall v w,
  sched (opt (val (for_each (train_batch epoch_index) l v w))) =
    Nat.iter (List.length l) scheduler_advance (sched (opt v)).
Proof.
  induction l as [|b l IH]; intros v w.
  - reflexivity.
  - rewrite for_each_cons, bind_val, IH.
    destruct (train_batch_frame epoch_index v b w) as (_ & _ & _ & _ & Hk).
    rewrite Hk. simpl List.length. rewrite Nat.iter_succ_r. reflexivity.
Qed.

Lemma run_epochs_sched n : forall o w,
  sched (val (run_epochs T n o w)) = Nat.iter (n * steps T) scheduler_advance (sched o).
Proof.
  induction n as [|n IH]; intros o w.
  - reflexivity.
  - destruct (run_epochs_S n o w) as (Hv & _ & _). rewrite Hv.
    destruct (train_epoch_run (val (run_epochs T n o w)) n (st (run_epochs T n o w)))
      as (Hv' & _ & _).
    rewrite Hv'. unfold epoch_trained. rewrite train_loop_sched. simpl sched.
    rewrite IH, train_loader_len.
    replace (S n * steps T) with (steps T + n * steps T) by lia.
    rewrite Nat.iter_add. reflexivity.
Qed.

Section Schedule.

Local Open Scope R_scope.

Lemma half_cosine_nonneg x : Rmax 0 (0.5 * (1 + cos x)) = 0.5 * (1 + cos x).
Proof.
  apply Rmax_right. pose proof (COS_bound x) as [Hlo _]. lra.
Qed.

Lemma lr_lambda_warmup E S k :
  (1 <= S)%nat -> (k <= S)%nat ->
  lr_lambda (schedule_at E S k) = INR k / INR S.
Proof.
  intros HS Hk. unfold lr_lambda, schedule_at.
  cbn [num_warmup_steps num_training_steps last_epoch].
  assert (HS0 : INR S <> 0) by (apply not_0_INR; lia).
  destruct (Nat.ltb_spec k S) as [Hlt | Hge].
  - rewrite Nat.max_r by lia. reflexivity.
  - assert (k = S) by lia. subst k.
    rewrite Nat.sub_diag. simpl INR.
    unfold Rdiv at 1. rewrite Rmult_0_l.
    replace (PI * 0.5 * 2 * 0) with 0 by lra.
    rewrite cos_0, Rmax_right by lra.
    unfold Rdiv. rewrite Rinv_r by exact HS0. lra.
Qed.

Lemma lr_lambda_cosine E S k :
  (1 <= S)%nat -> (2 <= E)%nat -> (S <= k)%nat ->
  lr_lambda (schedule_at E S k) =
    (1 + cos (PI * (INR (k - S) / INR (E * S - S)))) / 2.
Proof.
  intros HS HE Hk. unfold lr_lambda, schedule_at.
  cbn [num_warmup_steps num_training_steps last_epoch].
  destruct (Nat.ltb_spec k S) as [Hlt | _]; [lia|].
  rewrite Nat.max_r by nia.
  rewrite half_cosine_nonneg.
  replace (PI * 0.5 * 2 * (INR (k - S) / INR (E * S - S)))
    with (PI * (INR (k - S) / INR (E * S - S))) by lra.
  lra.
Qed.

(** C5, as amended: [model_train] builds the schedule with warmup length
    [steps] and total length [epochs * steps], and after [n] epochs the
    scheduler has been advanced [n * steps] times.  With at least one step
    per epoch and at least two epochs, the learning rate is 0 before the
    first step, is [2e-5 * k / steps] after [k <= steps] steps, so equals
    the configured rate 2e-5 when the first epoch ends, follows half a
    cosine wave afterwards, and is 0 once the last step has been taken. *)
Theorem cosine_schedule_with_warmup_of_run (w : world) :
  let E := epochs T in
  let S := steps T in
  sched (new_optim T w) = get_cosine_schedule_with_warmup S (E * S) /\
  (forall n, sched (val (run_state T n w)) = schedule_at E S (n * S)) /\
  ((1 <= S)%nat -> (2 <= E)%nat ->
   get_lr (schedule_at E S 0) = 0 /\
   (forall k, (k <= S)%nat ->
      get_lr (schedule_at E S k) = base_lr * (INR k / INR S)) /\
   get_lr (schedule_at E S (1 * S)) = base_lr /\
   (forall k, (S <= k)%nat ->
      get_lr (schedule_at E S k) =
        base_lr * ((1 + cos (PI * (INR (k - S) / INR (E * S - S)))) / 2)) /\
   get_lr (schedule_at E S (E * S)) = 0).
Proof.
  cbn zeta. split; [reflexivity|]. split.
  - intros n. unfold run_state. rewrite run_epochs_sched, iter_scheduler_advance.
    reflexivity.
  - intros HS HE.
    assert (HS0 : INR (steps T) <> 0) by (apply not_0_INR; lia).
    unfold get_lr. repeat split.
    + rewrite (lr_lambda_warmup _ _ 0 HS) by lia. simpl INR.
      unfold Rdiv. rewrite Rmult_0_l. apply Rmult_0_r.
    + intros k Hk. rewrite (lr_lambda_warmup _ _ k HS Hk). reflexivity.
    + rewrite Nat.mul_1_l, (lr_lambda_warmup _ _ _ HS) by lia. field. exact HS0.
    + intros k Hk. rewrite (lr_lambda_cosine _ _ k HS HE Hk). reflexivity.
    + rewrite (lr_lambda_cosine _ _ _ HS HE) by nia.
      assert (Hd : INR (epochs T * steps T - steps T) <> 0) by (apply not_0_INR; nia).
      replace (INR (epochs T * steps T - steps T) / INR (epochs T * steps T - steps T))
        with 1 by (field; exact Hd).
      rewrite Rmult_1_r, cos_PI. lra.
Qed.

(** C5 as first stated fails for a run of a single epoch: warmup then
    fills the whole run, and the rate at the last step is the configured
    rate, not 0. *)
Lemma single_epoch_ends_at_peak :
  get_lr (schedule_at 1 1 (1 * 1)) = base_lr /\
  get_lr (schedule_at 1 1 (1 * 1)) <> 0.
Proof.
  assert (H : get_lr (schedule_at 1 1 (1 * 1)) = base_lr).
  { unfold get_lr, lr_lambda, schedule_at. simpl.
    replace (PI * 0.5 * 2 * (0 / 1)) with 0 by lra.
    rewrite cos_0, Rmax_right by lra. lra. }
  split; [exact H|]. rewrite H. unfold base_lr. lra.
Qed.

End Schedule.

(** * Further properties *)

(** ** Parameter counts *)

Lemma parameter_count_split (ps : list parameter) :
  list_sum (map numel ps) =
    list_sum (map numel (filter requires_grad ps)) +
    list_sum (map numel (filter (fun p => negb (requires_grad p)) ps)).
Proof.
  induction ps as [|p ps IH]; simpl; [reflexivity|].
  destruct (requires_grad p); simpl; lia.
Qed.

Lemma frozen_count_zero (ps : list parameter) :
  list_sum (map numel (filter (fun p => negb (requires_grad p)) ps)) = 0 <->
  Forall (fun p => requires_grad p = true \/ numel p = 0) ps.
Proof.
  induction ps as [|p ps IH]; simpl.
  - split; [constructor | reflexivity].
  - destruct (requires_grad p) eqn:E; simpl.
    + rewrite IH. split.
      * intros H. constructor; [left; exact E | exact H].
      * intros H. inversion H; assumption.
    + split.
      * intros H. constructor; [right; lia | apply IH; lia].
      * intros H. inversion H as [|? ? [Hp | Hp] Hps]; subst; [congruence|].
        apply IH in Hps. lia.
Qed.

(** X1: of the two numbers [get_parameter_number] prints, the total is the
    trainable count plus the elements of the frozen tensors; so the
    trainable count never exceeds the total, and the two agree exactly
    when every tensor that has elements requires a gradient. *)
Theorem get_parameter_number_total_and_trainable (ps : list parameter) :
  let total_num := fst (get_parameter_number ps) in
  let trainable_num := snd (get_parameter_number ps) in
  total_num =
    trainable_num + list_sum (map numel (filter (fun p => negb (requires_grad p)) ps)) /\
  trainable_num <= total_num /\
  (trainable_num = total_num <->
   Forall (fun p => requires_grad p = true \/ numel p = 0) ps).
Proof.
  cbn zeta. unfold get_parameter_number. cbn [fst snd].
  pose proof (parameter_count_split ps) as Hs.
  pose proof (frozen_count_zero ps) as Hz.
  split; [exact Hs|]. split; [lia|].
  rewrite <- Hz. lia.
Qed.

(** ** The best accuracy and the best checkpoint *)

Lemma run_state_S n w :
  let r := run_state T n w in
  st (run_state T (S n) w) = st (train_epoch T (val r) n (st r)) /\
  best_acc (st (run_state T (S n) w)) = updated_best (best_acc (st r)) (run_acc T n w).
Proof.
  cbn zeta. unfold run_state, run_acc, updated_best.
  destruct (run_epochs_S n (new_optim T w) w) as (_ & Hs & _).
  rewrite Hs. split; [reflexivity|].
  destruct (train_epoch_checkpoints (val (run_epochs T n (new_optim T w) w)) n
              (st (run_epochs T n (new_optim T w) w))) as (Hb & _).
  exact Hb.
Qed.

Lemma updated_best_bounds best acc :
  (best <= updated_best best acc)%Q /\ (acc <= updated_best best acc)%Q /\
  (updated_best best acc = best \/ updated_best best acc = acc).
Proof.
  unfold updated_best. destruct (Qltb best acc) eqn:E.
  - apply Qltb_lt in E. repeat split; [apply Qlt_le_weak, E | apply Qle_refl | auto].
  - apply Qltb_ge in E. repeat split; [apply Qle_refl | exact E | auto].
Qed.

(** X2: after [n] epochs of a run, [best_acc] is the running maximum of the
    validation accuracies measured so far, starting from its initial value:
    it bounds all of them and is one of them or the initial value. *)
Theorem best_acc_is_running_maximum (n : nat) (w : world) :
  let best := best_acc (st (run_state T n w)) in
  best = fold_left updated_best (map (fun i => run_acc T i w) (seq 0 n)) (best_acc w) /\
  (best_acc w <= best)%Q /\
  Forall (fun i => (run_acc T i w <= best)%Q) (seq 0 n) /\
  (best = best_acc w \/ Exists (fun i => best = run_acc T i w) (seq 0 n)).
Proof.
  cbn zeta. induction n as [|n (IHf & IHl & IHa & IHe)].
  - simpl. repeat split; [apply Qle_refl | constructor | left; reflexivity].
  - destruct (run_state_S n w) as (_ & Hb). rewrite Hb. clear Hb.
    destruct (updated_best_bounds (best_acc (st (run_state T n w))) (run_acc T n w))
      as (Hge & Hacc & Hor).
    rewrite seq_S, map_app, fold_left_app. simpl.
    repeat split.
    + rewrite <- IHf. reflexivity.
    + eapply Qle_trans; [exact IHl | exact Hge].
    + apply Forall_app. split.
      * eapply Forall_impl; [|exact IHa]. intros i Hi. simpl in Hi.
        eapply Qle_trans; [exact Hi | exact Hge].
      * constructor; [exact Hacc | constructor].
    + destruct Hor as [Hor | Hor]; rewrite Hor.
      * destruct IHe as [IHe | IHe]; [left; exact IHe|].
        right. apply Exists_app. left. exact IHe.
      * right. apply Exists_app. right. constructor. reflexivity.
Qed.

(** X3: the script end to end.  If training from the initial state ends
    with a positive [best_acc], the best-checkpoint file holds parameters
    whose accuracy over the validation set is exactly [best_acc]; the test
    phase then succeeds and leaves those parameters in the model. *)
Theorem main_tests_the_best_validated_parameters
    (sd : state_dict) (g : generator) (fs : string -> option state_dict) :
  let w := init_world sd g fs in
  (0 < best_acc (st (model_train T w)))%Q ->
  exists best,
    files (st (model_train T w)) best_model_path = Some best /\
    split_accuracy best (valid_loader T) = best_acc (st (model_train T w)) /\
    val (main T w) = inr tt /\
    params (st (main T w)) = best.
Proof.
  intros w Hpos.
  destruct (model_train_run w) as (Hs & _).
  pose proof (best_file_matches_run (epochs T) sd g fs) as Hinv.
  fold w in Hinv. rewrite <- Hs in Hinv.
  destruct (Hinv Hpos) as (best & Hf & Hacc).
  exists best. split; [exact Hf|]. split; [exact Hacc|].
  destruct (model_test_run best (st (model_train T w)) Hf) as (Hv & Hst & _).
  unfold main. rewrite bind_val, bind_st, Hv, Hst. auto.
Qed.

(** ** The steps of a run, one by one *)

Lemma flat_map_none {X} (sel : event -> list X) (l : list event) :
  Forall (fun e => sel e = []) l -> flat_map sel l = [].
Proof.
  induction 1 as [|e l He _ IH]; simpl; [reflexivity|]. rewrite He. exact IH.
Qed.

Lemma eval_events_not_steps gr l :
  Forall (fun e => is_step_event e = false) (flat_map (eval_events gr) l).
Proof.
  induction l as [|b l IH]; simpl; [constructor|].
  repeat (constructor; [reflexivity|]). exact IH.
Qed.

(** An epoch is a switch to training mode, its training loop, and then
    events that are neither optimizer steps nor step logs and whose
    encoder calls are the validation pass. *)
Lemma train_epoch_split o i w :
  exists rest,
    evs (train_epoch T o i w) = ModelTrainMode :: evs (epoch_trained T o i w) ++ rest /\
    Forall (fun e => is_step_event e = false) rest /\
    filter is_bert_call rest = map eval_call (valid_loader T).
Proof.
  destruct (train_epoch_run o i w) as (_ & _ & He). rewrite He. clear He.
  set (tr := epoch_trained T o i w).
  destruct (model_valid_run (valid_loader T) (st tr)) as (_ & _ & Hve).
  set (va := model_valid (valid_loader T) (st tr)) in *.
  destruct (save_checkpoints_run (val va) (st va)) as (_ & _ & _ & _ & Hse).
  eexists. split; [reflexivity|]. rewrite Hve, Hse. split.
  - repeat match goal with
           | |- Forall _ (_ ++ _) => apply Forall_app; split
           | |- Forall _ (_ :: _) => constructor; [reflexivity|]
           | |- Forall _ [] => constructor
           | |- Forall _ (flat_map _ _) => apply eval_events_not_steps
           | |- Forall _ (if ?c then _ else _) => destruct c
           end.
  - simpl. rewrite !filter_app, eval_events_bert_calls. simpl.
    destruct (Qltb _ _); simpl; repeat rewrite app_nil_r; reflexivity.
Qed.

Lemma train_epoch_steps_only {X} (sel : event -> list X) o i w :
  (forall e, is_step_event e = false -> sel e = []) ->
  flat_map sel (evs (train_epoch T o i w)) = flat_map sel (evs (epoch_trained T o i w)).
Proof.
  intros Hsel. destruct (train_epoch_split o i w) as (rest & He & Hrest & _).
  rewrite He. simpl. rewrite (Hsel ModelTrainMode eq_refl), flat_map_app. simpl.
  rewrite (flat_map_none sel rest), app_nil_r; [reflexivity|].
  eapply Forall_impl; [|exact Hrest]. exact Hsel.
Qed.

Lemma train_batch_steps e v b w :
  let r := train_batch e v b w in
  flat_map update_rates (evs r) = [sched (opt v)] /\
  flat_map logged_rates (evs r) = [scheduler_advance (sched (opt v))] /\
  (forall S, flat_map (logged_global_steps S) (evs r) =
             [global_step S e (batch_index v + 1)]) /\
  batch_index (val r) = batch_index v + 1 /\
  sched (opt (val r)) = scheduler_advance (sched (opt v)).
Proof.
  unfold train_batch, forward, self_bert, self_classifier, draw, to_device,
    cross_entropy_loss, optimizer_zero_grad, loss_backward, optimizer_step,
    scheduler_step, bind, get, modify, emit, ret; simpl. auto.
Qed.

Lemma train_loop_rates E S e l : forall v w k,
  sched (opt v) = schedule_at E S k ->
  let r := for_each (train_batch e) l v w in
  flat_map update_rates (evs r) = map (schedule_at E S) (seq k (List.length l)) /\
  flat_map logged_rates (evs r) = map (schedule_at E S) (seq (Datatypes.S k) (List.length l)).
Proof.
  induction l as [|b l IH]; intros v w k Hk; cbn zeta.
  - simpl. auto.
  - rewrite for_each_cons, bind_evs, !flat_map_app.
    destruct (train_batch_steps e v b w) as (Hu & Hl & _ & _ & Hs).
    rewrite Hu, Hl, Hk.
    destruct (IH (val (train_batch e v b w)) (st (train_batch e v b w)) (Datatypes.S k))
      as (Hu' & Hl'); [rewrite Hs, Hk; reflexivity|].
    rewrite Hu', Hl'. simpl. auto.
Qed.

Lemma train_loop_global_steps S e l : forall v w,
  flat_map (logged_global_steps S) (evs (for_each (train_batch e) l v w)) =
    map (global_step S e) (seq (batch_index v + 1) (List.length l)).
Proof.
  induction l as [|b l IH]; intros v w.
  - reflexivity.
  - rewrite for_each_cons, bind_evs, flat_map_app.
    destruct (train_batch_steps e v b w) as (_ & _ & Hg & Hb & _).
    rewrite Hg, IH, Hb. simpl.
    replace (batch_index v + 1 + 1) with (Datatypes.S (batch_index v + 1)) by lia.
    reflexivity.
Qed.

Lemma global_step_seq S i m : forall a,
  map (global_step S (i + 1)) (seq a m) = seq (i * S + a) m.
Proof.
  induction m as [|m IH]; intros a; simpl; [reflexivity|].
  rewrite IH. unfold global_step. rewrite Nat.add_sub.
  f_equal. f_equal. lia.
Qed.

Lemma run_rates E n : forall o w k,
  sched o = schedule_at E (steps T) k ->
  flat_map update_rates (evs (run_epochs T n o w)) =
    map (schedule_at E (steps T)) (seq k (n * steps T)) /\
  flat_map logged_rates (evs (run_epochs T n o w)) =
    map (schedule_at E (steps T)) (seq (S k) (n * steps T)).
Proof.
  induction n as [|n IH]; intros o w k Hk.
  - simpl. auto.
  - destruct (run_epochs_S n o w) as (_ & _ & He). rewrite He. clear He.
    destruct (IH o w k Hk) as (Hu & Hl).
    rewrite !flat_map_app, Hu, Hl.
    rewrite !train_epoch_steps_only by (intros [] He; try discriminate He; reflexivity).
    assert (Hs : sched (val (run_epochs T n o w)) = schedule_at E (steps T) (k + n * steps T)).
    { rewrite run_epochs_sched, iter_scheduler_advance, Hk. reflexivity. }
    unfold epoch_trained.
    destruct (train_loop_rates E (steps T) (n + 1) (train_loader T n)
                {| opt := val (run_epochs T n o w); train_loss_sum := 0;
                   train_accuracy := 0; batch_index := 0 |}
                (set_training true (st (run_epochs T n o w)))
                (k + n * steps T) Hs) as (Hu' & Hl').
    rewrite Hu', Hl', train_loader_len.
    replace (S n * steps T) with (n * steps T + steps T) by lia.
    rewrite !seq_app, !map_app. simpl. auto.
Qed.

Lemma run_global_steps n : forall o w,
  flat_map (logged_global_steps (steps T)) (evs (run_epochs T n o w)) =
    seq 1 (n * steps T).
Proof.
  induction n as [|n IH]; intros o w.
  - reflexivity.
  - destruct (run_epochs_S n o w) as (_ & _ & He). rewrite He. clear He.
    rewrite flat_map_app, IH.
    rewrite train_epoch_steps_only by (intros [] He; try discriminate He; reflexivity).
    unfold epoch_trained. rewrite train_loop_global_steps. simpl batch_index.
    rewrite global_step_seq, train_loader_len.
    replace (S n * steps T) with (n * steps T + steps T) by lia.
    rewrite seq_app. f_equal. f_equal. lia.
Qed.

(** X4: the parameter updates of a run, in order, apply the rates of
    schedule positions 0, 1, ..., [epochs * steps - 1], while the log line
    of each step shows the rate of the next position; the run makes as many
    updates as the schedule was told, [num_training_steps]. *)
Theorem updates_walk_the_schedule (w : world) :
  let E := epochs T in
  let S := steps T in
  let trace := evs (model_train T w) in
  flat_map update_rates trace = map (schedule_at E S) (seq 0 (E * S)) /\
  flat_map logged_rates trace = map (schedule_at E S) (seq 1 (E * S)) /\
  List.length (flat_map update_rates trace) = num_training_steps (sched (new_optim T w)).
Proof.
  cbn zeta. destruct (model_train_run w) as (_ & He). rewrite He. unfold run_state.
  destruct (run_rates (epochs T) (epochs T) (new_optim T w) w 0 eq_refl) as (Hu & Hl).
  rewrite Hu, Hl. repeat split.
  rewrite length_map, length_seq. reflexivity.
Qed.

(** X5: the scalars of a run are filed under the global steps 1, 2, ...,
    [epochs * steps], in this order: no step index is skipped or used twice,
    within an epoch or across epochs. *)
Theorem global_steps_are_consecutive (w : world) :
  flat_map (logged_global_steps (steps T)) (evs (model_train T w)) =
    seq 1 (epochs T * steps T).
Proof.
  destruct (model_train_run w) as (_ & He). rewrite He. unfold run_state.
  apply run_global_steps.
Qed.

(** ** Accuracies stay between 0 and 1 *)

Lemma count_equal_le (y_true y_pred : list nat) :
  count_equal y_true y_pred <= List.length y_true.
Proof.
  revert y_pred. induction y_true as [|t ts IH]; intros [|p ps]; simpl; try lia.
  specialize (IH ps). destruct (Nat.eqb t p); lia.
Qed.

Lemma accuracy_score_range (y_true y_pred : list nat) :
  (0 <= accuracy_score y_true y_pred /\ accuracy_score y_true y_pred <= 1)%Q.
Proof.
  unfold accuracy_score, Qle. cbn [Qnum Qden].
  pose proof (count_equal_le y_true y_pred) as Hle.
  split; [lia|].
  destruct (List.length y_true) as [|n] eqn:E.
  - simpl. lia.
  - rewrite <- (positive_nat_Z (Pos.of_nat (S n))), Nat2Pos.id by discriminate. lia.
Qed.

Lemma nQ_succ (n : nat) : (nQ (n + 1) == nQ n + 1)%Q.
Proof.
  unfold nQ. rewrite Nat2Z.inj_add, inject_Z_plus. reflexivity.
Qed.

Lemma nQ_succ_pos (n : nat) : (0 < nQ (n + 1))%Q.
Proof.
  unfold nQ, Qlt. simpl. lia.
Qed.

Lemma train_batch_accuracy_range e v b w :
  sums_in_range v ->
  sums_in_range (val (train_batch e v b w)) /\
  Forall logged_accuracy_in_range (evs (train_batch e v b w)).
Proof.
  intros (Hlo & Hhi).
  unfold train_batch, forward, self_bert, self_classifier, draw, to_device,
    cross_entropy_loss, optimizer_zero_grad, loss_backward, optimizer_step,
    scheduler_step, bind, get, modify, emit, ret; simpl.
  set (acc := model_evaluate _ _).
  assert (Hacc : (0 <= acc /\ acc <= 1)%Q) by apply accuracy_score_range.
  destruct Hacc as (Ha0 & Ha1).
  assert (Hsum0 : (0 <= train_accuracy v + acc)%Q).
  { replace 0%Q with (0 + 0)%Q by reflexivity. apply Qplus_le_compat; assumption. }
  assert (Hsum1 : (train_accuracy v + acc <= nQ (batch_index v + 1))%Q).
  { rewrite nQ_succ. apply Qplus_le_compat; assumption. }
  split; [split; assumption|].
  repeat (constructor; [exact I|]).
  constructor; [|constructor]. simpl. split.
  - apply Qle_shift_div_l; [apply nQ_succ_pos|]. rewrite Qmult_0_l. exact Hsum0.
  - apply Qle_shift_div_r; [apply nQ_succ_pos|]. rewrite Qmult_1_l. exact Hsum1.
Qed.

Lemma train_loop_accuracy_range e l : forall v w,
  sums_in_range v ->
  Forall logged_accuracy_in_range (evs (for_each (train_batch e) l v w)).
Proof.
  induction l as [|b l IH]; intros v w Hv.
  - constructor.
  - rewrite for_each_cons, bind_evs.
    destruct (train_batch_accuracy_range e v b w Hv) as (Hv' & Hev).
    apply Forall_app. split; [exact Hev | apply IH; exact Hv'].
Qed.

Lemma run_accuracy_range n : forall o w,
  Forall logged_accuracy_in_range (evs (run_epochs T n o w)).
Proof.
  induction n as [|n IH]; intros o w.
  - constructor.
  - destruct (run_epochs_S n o w) as (_ & _ & He). rewrite He. clear He.
    apply Forall_app. split; [apply IH|].
    destruct (train_epoch_split (val (run_epochs T n o w)) n (st (run_epochs T n o w)))
      as (rest & He & Hrest & _).
    rewrite He. constructor; [exact I|]. apply Forall_app. split.
    + apply train_loop_accuracy_range. split; simpl; apply Qle_refl.
    + eapply Forall_impl; [|exact Hrest].
      intros [] Hx; try exact I. discriminate Hx.
Qed.

(** X6: the accuracy [model_evaluate] returns for a batch lies between 0
    and 1, and so does every running mean of batch accuracies that the
    training loop logs, in every step of every epoch. *)
Theorem training_accuracies_stay_in_range :
  (forall (y_true : list nat) (y_pred : logits_t),
     (0 <= model_evaluate y_true y_pred /\ model_evaluate y_true y_pred <= 1)%Q) /\
  (forall w : world, Forall logged_accuracy_in_range (evs (model_train T w))).
Proof.
  split.
  - intros y_true y_pred. apply accuracy_score_range.
  - intros w. destruct (model_train_run w) as (_ & He). rewrite He.
    apply run_accuracy_range.
Qed.

(** ** Modes of the encoder calls *)

Lemma train_batch_calls e v b w :
  training w = true ->
  let r := train_batch e v b w in
  filter is_bert_call (evs r) = [train_call (grad_enabled w) b] /\
  training (st r) = true /\
  grad_enabled (st r) = grad_enabled w.
Proof.
  intros Hw.
  unfold train_batch, forward, self_bert, self_classifier, draw, to_device,
    cross_entropy_loss, optimizer_zero_grad, loss_backward, optimizer_step,
    scheduler_step, bind, get, modify, emit, ret, train_call; simpl.
  rewrite Hw. simpl. auto.
Qed.

Lemma train_loop_calls e l : forall v w,
  training w = true ->
  filter is_bert_call (evs (for_each (train_batch e) l v w)) =
    map (train_call (grad_enabled w)) l.
Proof.
  induction l as [|b l IH]; intros v w Hw.
  - reflexivity.
  - rewrite for_each_cons, bind_evs, filter_app.
    destruct (train_batch_calls e v b w Hw) as (Hc & Ht & Hg).
    rewrite Hc, (IH _ _ Ht), Hg. reflexivity.
Qed.

(** X7: whatever mode the model is in when an epoch begins (after the
    first epoch it is evaluation mode, left by the validation pass), the
    epoch calls the encoder once per training batch in training mode, then
    once per validation batch in evaluation mode with autograd off, and
    ends in evaluation mode with the autograd switch as it found it. *)
Theorem epoch_trains_in_training_mode (o : optim) (i : nat) (w : world) :
  let r := train_epoch T o i w in
  filter is_bert_call (evs r) =
    map (train_call (grad_enabled w)) (train_loader T i) ++
    map eval_call (valid_loader T) /\
  training (st r) = false /\
  grad_enabled (st r) = grad_enabled w.
Proof.
  cbn zeta.
  destruct (train_epoch_split o i w) as (rest & He & _ & Hcalls).
  rewrite He. simpl. rewrite filter_app, Hcalls.
  unfold epoch_trained. rewrite train_loop_calls by reflexivity.
  split; [reflexivity|].
  destruct (train_epoch_run o i w) as (_ & Hs & _). rewrite Hs. clear Hs.
  set (tr := epoch_trained T o i w).
  destruct (model_valid_run (valid_loader T) (st tr)) as (_ & Hvs & _).
  set (va := model_valid (valid_loader T) (st tr)) in *.
  assert (Hg : grad_enabled (st tr) = grad_enabled w).
  { clear. subst tr. unfold epoch_trained.
    generalize {| opt := o; train_loss_sum := 0; train_accuracy := 0; batch_index := 0 |}.
    assert (Hw : training (set_training true w) = true) by reflexivity.
    change (grad_enabled w) with (grad_enabled (set_training true w)).
    revert Hw. generalize (set_training true w).
    induction (train_loader T i) as [|b l IH]; intros w0 Hw0 v.
    - reflexivity.
    - rewrite for_each_cons, bind_st.
      destruct (train_batch_calls (i + 1) v b w0 Hw0) as (_ & Ht & Hg).
      rewrite IH by exact Ht. exact Hg. }
  unfold save_checkpoints, torch_save, bind, get, modify, emit, ret; simpl.
  rewrite Hvs.
  destruct (Qltb _ _); simpl; auto.
Qed.

(** ** What gets validated is what gets saved *)

(** X8: in every epoch the parameters that the validation pass scores are
    the very parameters then written to the most-recent file, written to
    the best file when the score improves on [best_acc], and left in the
    model; otherwise the best file keeps what it held. *)
Theorem validated_parameters_are_the_saved_ones (o : optim) (i : nat) (w : world) :
  let r := train_epoch T o i w in
  let sd := params (st r) in
  epoch_acc T o i w = split_accuracy sd (valid_loader T) /\
  sd = params (st (epoch_trained T o i w)) /\
  files (st r) most_model_path = Some sd /\
  files (st r) best_model_path =
    (if Qltb (best_acc w) (epoch_acc T o i w) then Some sd
     else files w best_model_path).
Proof.
  cbn zeta.
  destruct (train_epoch_checkpoints o i w) as (_ & Hm & Hb & Hacc & _).
  repeat split; [exact Hacc | | exact Hm | exact Hb].
  destruct (train_epoch_run o i w) as (_ & Hs & _). rewrite Hs.
  destruct (save_checkpoints_run
              (val (model_valid (valid_loader T) (st (epoch_trained T o i w))))
              (st (model_valid (valid_loader T) (st (epoch_trained T o i w)))))
    as (Hp & _).
  rewrite Hp.
  destruct (model_valid_run (valid_loader T) (st (epoch_trained T o i w))) as (_ & Hvs & _).
  rewrite Hvs. reflexivity.
Qed.

(** ** Failure of the test phase *)

(** X9: when no file exists at the best-checkpoint path, [model_test]
    ends at the load with the file-not-found exception: the model is not
    called and the state, with the parameters of the last epoch, is
    untouched.  It can only succeed if the file exists, and then the model
    holds the file's parameters and is in evaluation mode.  In either case
    it changes neither the files nor [best_acc] nor the gradient buffers,
    and leaves the autograd switch as it found it. *)
Theorem model_test_needs_the_best_file (w : world) :
  let r := model_test T w in
  (files w best_model_path = None ->
   val r = inl (FileNotFoundError best_model_path) /\
   st r = w /\
   evs r = [Load best_model_path]) /\
  (val r = inr tt ->
   exists sd, files w best_model_path = Some sd /\
              params (st r) = sd /\ training (st r) = false) /\
  files (st r) = files w /\
  best_acc (st r) = best_acc w /\
  grad_buf (st r) = grad_buf w /\
  grad_enabled (st r) = grad_enabled w.
Proof.
  cbn zeta. destruct (files w best_model_path) as [sd|] eqn:Hf.
  - destruct (model_test_run sd w Hf) as (Hv & Hs & _). rewrite Hv, Hs.
    split; [discriminate|]. split; [|simpl; auto].
    intros _. exists sd. simpl. auto.
  - destruct (model_test_missing w Hf) as (Hv & Hs & He). rewrite Hv, Hs, He.
    split; [auto|]. split; [discriminate | auto].
Qed.

(** ** The rates of the first and the last update *)

Section ScheduleInUse.

Local Open Scope R_scope.

Lemma nth_schedule E S a n k :
  (k < n)%nat ->
  nth_error (map (schedule_at E S) (seq a n)) k = Some (schedule_at E S (a + k)).
Proof.
  intros Hk. rewrite nth_error_map, nth_error_seq.
  destruct (Nat.ltb_spec k n) as [_ | Hge]; [reflexivity | lia].
Qed.

Lemma last_update_rate_positive E S :
  (1 <= S)%nat -> (2 <= E)%nat -> 0 < get_lr (schedule_at E S (E * S - 1)).
Proof.
  intros HS HE.
  assert (Hk : (S <= E * S - 1)%nat) by nia.
  unfold get_lr. rewrite (lr_lambda_cosine E S _ HS HE Hk).
  set (d := (E * S - S)%nat).
  assert (Hd : (1 <= d)%nat) by (subst d; nia).
  replace (E * S - 1 - S)%nat with (d - 1)%nat by (subst d; lia).
  assert (Hd0 : 0 < INR d) by (apply lt_0_INR; lia).
  assert (Hinv : 0 < / INR d) by (apply Rinv_0_lt_compat; exact Hd0).
  assert (Hp0 : 0 <= INR (d - 1) / INR d).
  { unfold Rdiv. apply Rmult_le_pos; [apply pos_INR | lra]. }
  assert (Hp1 : INR (d - 1) / INR d < 1).
  { unfold Rdiv. rewrite <- (Rinv_r (INR d)) by lra.
    apply Rmult_lt_compat_r; [exact Hinv | apply lt_INR; lia]. }
  pose proof PI_RGT_0 as Hpi.
  assert (Hcos : cos PI < cos (PI * (INR (d - 1) / INR d))).
  { apply cos_decreasing_1; try lra.
    - apply Rmult_le_pos; lra.
    - rewrite <- (Rmult_1_r PI) at 2. apply Rmult_le_compat_l; lra.
    - rewrite <- (Rmult_1_r PI) at 2. apply Rmult_lt_compat_l; lra. }
  rewrite cos_PI in Hcos.
  unfold base_lr. apply Rmult_lt_0_compat; lra.
Qed.

(** X10: in a run of at least two epochs with at least one step each, the
    first parameter update is made with learning rate 0, and the last one
    with a positive rate, although the rate logged for that last step
    (read after the scheduler has advanced) is 0. *)
Theorem first_update_at_zero_last_above_zero (w : world) :
  let E := epochs T in
  let S := steps T in
  let trace := evs (model_train T w) in
  (1 <= S)%nat -> (2 <= E)%nat ->
  (exists s, nth_error (flat_map update_rates trace) 0 = Some s /\ get_lr s = 0) /\
  (exists s, nth_error (flat_map update_rates trace) (E * S - 1) = Some s /\
             0 < get_lr s) /\
  (exists s, nth_error (flat_map logged_rates trace) (E * S - 1) = Some s /\
             get_lr s = 0).
Proof.
  cbn zeta. intros HS HE.
  destruct (model_train_run w) as (_ & He). rewrite He. unfold run_state.
  destruct (run_rates (epochs T) (epochs T) (new_optim T w) w 0%nat eq_refl) as (Hu & Hl).
  rewrite Hu, Hl.
  assert (Hn : (0 < epochs T * steps T)%nat) by nia.
  assert (HS0 : INR (steps T) <> 0) by (apply not_0_INR; lia).
  split; [|split].
  - eexists. split; [apply nth_schedule; exact Hn|].
    unfold get_lr. rewrite lr_lambda_warmup by lia. simpl INR.
    unfold Rdiv. rewrite Rmult_0_l. apply Rmult_0_r.
  - eexists. split; [apply nth_schedule; lia|].
    simpl Nat.add. apply last_update_rate_positive; assumption.
  - eexists. split; [apply nth_schedule; lia|].
    replace (1 + (epochs T * steps T - 1))%nat with (epochs T * steps T)%nat by lia.
    unfold get_lr. rewrite (lr_lambda_cosine _ _ _ HS HE) by nia.
    assert (Hd : INR (epochs T * steps T - steps T) <> 0) by (apply not_0_INR; nia).
    replace (INR (epochs T * steps T - steps T) / INR (epochs T * steps T - steps T))
      with 1 by (field; exact Hd).
    rewrite Rmult_1_r, cos_PI. lra.
Qed.

End ScheduleInUse.
End Properties.

(** ** The script run on the one-weight instance *)

Import Toy.

(** The run whose second epoch regresses: the best checkpoint is written
    once, in the first epoch; the most-recent one in both. *)
Example regressing_run_checkpoints :
  let r := model_train regressing (init_world 0%Z 0 no_files) in
  filter (fun e => is_save_to best_model_path e || is_save_to most_model_path e) (evs r) =
    [Save best_model_path 1%Z; Save most_model_path 1%Z; Save most_model_path 0%Z] /\
  best_acc (st r) = 1 # 1.
Proof. vm_compute. split; reflexivity. Qed.

(** C3 on a batch in training mode: [forward] calls the encoder and the
    linear layer and never the dropout module that [__init__] builds, so its
    logits are those of the pooled output itself; the head as documented
    would call dropout in between and project the masked output. *)
Theorem forward_applies_no_dropout :
  let w := init_world 3%Z 0 no_files in
  training w = true /\
  evs (forward [2%Z] [1%Z] None w) =
    [BertCall true true [2%Z] [1%Z] None; ClassifierCall] /\
  evs (forward_documented [2%Z] [1%Z] None w) =
    [BertCall true true [2%Z] [1%Z] None; DropoutCall true; ClassifierCall] /\
  val (forward [2%Z] [1%Z] None w) = [[0 # 1; 6 # 1]] /\
  val (forward_documented [2%Z] [1%Z] None w) = [[0 # 1; 12 # 1]] /\
  val (forward [2%Z] [1%Z] None w) <> val (forward_documented [2%Z] [1%Z] None w).
Proof.
  vm_compute. repeat split; try reflexivity. intros H. discriminate H.
Qed.

Lemma model_evaluate_three_quarters :
  model_evaluate (F := toy) [0; 1; 1; 0] logits_0010 = 3 # 4.
Proof.
  apply (proj2 (proj2 (model_evaluate_argmax_accuracy (F := toy) [0; 1; 1; 0]
                         logits_0010)));
    reflexivity.
Defined.

Lemma test_loads_best_after_regression :
  let w := st (model_train regressing (init_world 0%Z 0 no_files)) in
  files w best_model_path = Some 1%Z /\
  files w most_model_path = Some 0%Z /\
  val (model_test regressing w) = inr tt /\
  params (st (model_test regressing w)) = 1%Z.
Proof.
  intros w.
  assert (Hbest : files w best_model_path = Some 1%Z) by (vm_compute; reflexivity).
  assert (Hmost : files w most_model_path = Some 0%Z) by (vm_compute; reflexivity).
  destruct (model_test_best_checkpoint_one_pass regressing 1%Z w Hbest) as (Hv & Hp & _).
  repeat split; assumption.
Defined.

Lemma two_epoch_schedule_endpoints :
  get_lr (schedule_at 2 1 0) = 0%R /\
  get_lr (schedule_at 2 1 1) = base_lr /\
  get_lr (schedule_at 2 1 2) = 0%R.
Proof.
  assert (H1 : 1 <= 1) by lia.
  assert (H2 : 2 <= 2) by lia.
  destruct (proj2 (proj2 (cosine_schedule_with_warmup_of_run regressing
                            (init_world (F := toy) 0%Z 0 no_files))) H1 H2)
    as (Hstart & _ & Hpeak & _ & Hend).
  repeat split; assumption.
Defined.

Lemma stuck_run_cannot_load :
  val (main stuck (init_world 0%Z 0 no_files)) =
    inl (FileNotFoundError best_model_path).
Proof.
  assert (Hacc : forall i, i < epochs stuck ->
                   (run_acc stuck i (init_world 0%Z 0%nat no_files) <= 0)%Q).
  { intros i Hi. simpl in Hi.
    destruct i as [|[|i]]; [vm_compute; discriminate | vm_compute; discriminate | lia]. }
  destruct (no_improvement_no_best_checkpoint stuck 0%Z 0 no_files Hacc)
    as (_ & _ & Hnone & _).
  apply (proj1 (Hnone eq_refl)).
Defined.

(** C10 as first stated fails when a best-checkpoint file is already
    there: no epoch improves on 0 and training writes no best checkpoint,
    yet the load succeeds and the test phase runs on the older file. *)
Lemma stale_best_checkpoint_is_loaded :
  let w := init_world 0%Z 0 stale_files in
  (forall i, i < epochs stuck -> (run_acc stuck i w <= 0)%Q) /\
  filter (is_save_to best_model_path) (evs (model_train stuck w)) = [] /\
  val (main stuck w) = inr tt /\
  val (main stuck w) <> inl (FileNotFoundError best_model_path) /\
  params (st (main stuck w)) = 5%Z.
Proof.
  intros w. split; [|split; [|split; [|split]]].
  - intros i Hi. simpl in Hi.
    destruct i as [|[|i]]; [vm_compute; discriminate | vm_compute; discriminate | lia].
  - vm_compute. reflexivity.
  - vm_compute. reflexivity.
  - vm_compute. intros H. discriminate H.
  - vm_compute. reflexivity.
Qed.

(** The regressing run ends with [best_acc = 1], so its test phase runs on
    parameters that score 1 on the validation set. *)
Lemma regressing_run_tests_validated_best :
  exists best,
    files (st (model_train regressing (init_world 0%Z 0 no_files))) best_model_path =
      Some best /\
    split_accuracy best (valid_loader regressing) =
      best_acc (st (model_train regressing (init_world 0%Z 0 no_files))) /\
    val (main regressing (init_world 0%Z 0 no_files)) = inr tt /\
    params (st (main regressing (init_world 0%Z 0 no_files))) = best.
Proof.
  apply (main_tests_the_best_validated_parameters regressing 0%Z 0 no_files).
  vm_compute. reflexivity.
Defined.

Lemma missing_best_file_stops_test :
  st (model_test stuck (init_world (F := toy) 0%Z 0 no_files)) = init_world (F := toy) 0%Z 0 no_files /\
  evs (model_test stuck (init_world (F := toy) 0%Z 0 no_files)) = [Load best_model_path].
Proof.
  apply (proj2 (proj1 (model_test_needs_the_best_file stuck
                         (init_world (F := toy) 0%Z 0 no_files)) eq_refl)).
Defined.

Lemma regressing_first_and_last_update_rates :
  let trace := evs (model_train regressing (init_world (F := toy) 0%Z 0 no_files)) in
  (exists s, nth_error (flat_map update_rates trace) 0 = Some s /\ get_lr s = 0%R) /\
  (exists s, nth_error (flat_map update_rates trace)
               (epochs regressing * steps regressing - 1) = Some s /\
             (0 < get_lr s)%R) /\
  (exists s, nth_error (flat_map logged_rates trace)
               (epochs regressing * steps regressing - 1) = Some s /\
             get_lr s = 0%R).
Proof.
  assert (H1 : 1 <= steps regressing) by (simpl; lia).
  assert (H2 : 2 <= epochs regressing) by (simpl; lia).
  exact (first_update_at_zero_last_above_zero regressing
           (init_world (F := toy) 0%Z 0 no_files) H1 H2).
Defined.
